(** * codebase-digest: the directory analysis and filtering engine

    A shallow embedding of [src/codebase_digest/app.py]: the ignore-rule
    matcher [should_ignore], the text classifier [is_text_file], the
    definition extractor [extract_classes_and_functions] and the recursive
    tree builder [analyze_directory], followed by the properties of the
    specification that concern them.

    Conventions.
    - A Python [str] is a Stdlib [string]; [len] is [String.length].
    - A Python [bytes] is a [list byte].
    - The scanned file system is a finite tree ([fsnode]); [os.listdir]
      returns the entries in the order of the tree.
    - Library functions the program calls but does not define are section
      variables: [fnmatch.fnmatch], the [tiktoken] encoder behind
      [count_tokens], the UTF-8 decoder behind [read_file_content], and
      [re.finditer] for the two compiled patterns.  [os.path] is modelled
      concretely (POSIX flavour) relative to a current directory [cwd].
    - Console output ([print]) has no effect on any returned value and is
      left out.  The staging copy ([temp_dir]) writes outside the scanned
      tree and never changes the returned tree; it is left out as well. *)

From Stdlib Require Import List Strings.String Strings.Ascii Strings.Byte Bool Arith ZArith NArith Lia.
From Stdlib Require Import DecimalString.
Import ListNotations.

Local Open Scope string_scope.
Local Open Scope list_scope.

(** ** Python string primitives *)

Module Py.

(** [s.startswith(p)] *)
Definition startswith (s p : string) : bool := String.prefix p s.

(** [s.endswith("/")] *)
Fixpoint ends_with_sep (s : string) : bool :=
  match s with
  | EmptyString => false
  | String c EmptyString => Ascii.eqb c "/"
  | String _ rest => ends_with_sep rest
  end.

(** [p in s] for strings: [p] occurs in [s] as a contiguous substring. *)
Fixpoint str_in (p s : string) : bool :=
  String.prefix p s ||
  match s with
  | EmptyString => false
  | String _ rest => str_in p rest
  end.

(** [s[1:]] *)
Definition tail (s : string) : string :=
  match s with
  | EmptyString => EmptyString
  | String _ rest => rest
  end.

(** [s.split(sep)] for a one-character separator: never returns the empty
    list, and keeps empty fields. *)
Fixpoint split (sep : ascii) (s : string) : list string :=
  match s with
  | EmptyString => [EmptyString]
  | String c rest =>
      if Ascii.eqb c sep then EmptyString :: split sep rest
      else match split sep rest with
           | [] => [String c EmptyString]
           | w :: ws => String c w :: ws
           end
  end.

(** [sep.join(parts)] *)
Fixpoint join_with (sep : string) (parts : list string) : string :=
  match parts with
  | [] => EmptyString
  | [p] => p
  | p :: ps => p ++ sep ++ join_with sep ps
  end.

(** [any(f(x) for x in l)] and [all(f(x) for x in l)] *)
Definition any {A} (f : A -> bool) (l : list A) : bool := existsb f l.
Definition all {A} (f : A -> bool) (l : list A) : bool := forallb f l.

(** Truth value of an optional list ([None] and [[]] are falsy). *)
Definition truthy {A} (o : option (list A)) : bool :=
  match o with
  | Some (_ :: _) => true
  | _ => false
  end.

End Py.

(** ** [os.path] on POSIX *)

Module posixpath.

Definition sep : ascii := "/"%char.

Definition isabs (p : string) : bool := Py.startswith p "/".

(** [os.path.join(a, b)] *)
Definition join (a b : string) : string :=
  if Py.startswith b "/" then b
  else if (String.eqb a "" || Py.ends_with_sep a)%bool then a ++ b
  else a ++ "/" ++ b.

(** [os.path.basename(p)]: what follows the last slash. *)
Definition basename (p : string) : string := last (Py.split sep p) "".

(** The component stack of [normpath]: [new_comps] is kept reversed. *)
Fixpoint norm_comps (initial_slashes : bool) (comps : list string)
         (new_comps : list string) : list string :=
  match comps with
  | [] => rev new_comps
  | comp :: rest =>
      if (String.eqb comp "" || String.eqb comp ".")%bool
      then norm_comps initial_slashes rest new_comps
      else if (negb (String.eqb comp "..")
               || (negb initial_slashes && match new_comps with [] => true | _ => false end)
               || match new_comps with top :: _ => String.eqb top ".." | [] => false end)%bool
      then norm_comps initial_slashes rest (comp :: new_comps)
      else match new_comps with
           | _ :: popped => norm_comps initial_slashes rest popped
           | [] => norm_comps initial_slashes rest new_comps
           end
  end.

(** [os.path.normpath(p)] *)
Definition normpath (p : string) : string :=
  if String.eqb p "" then "." else
  let slashes : string :=
    if Py.startswith p "/" then
      if (Py.startswith p "//" && negb (Py.startswith p "///"))%bool then "//" else "/"
    else "" in
  let comps := norm_comps (Py.startswith p "/") (Py.split sep p) [] in
  let path := (slashes ++ Py.join_with "/" comps)%string in
  if String.eqb path "" then "." else path.

(** [os.path.abspath(p)], with [cwd] the value of [os.getcwd()]. *)
Definition abspath (cwd p : string) : string :=
  normpath (if isabs p then p else join cwd p).

Fixpoint common_prefix_len (a b : list string) : nat :=
  match a, b with
  | x :: a', y :: b' => if String.eqb x y then S (common_prefix_len a' b') else 0
  | _, _ => 0
  end.

Definition nonempty (s : string) : bool := negb (String.eqb s "").

(** [os.path.relpath(p, start)].  Python raises [ValueError] on an empty [p];
    the traversal only passes [join path item] for a directory entry [item],
    which is never empty. *)
Definition relpath (cwd p start : string) : string :=
  let start_list := filter nonempty (Py.split sep (abspath cwd start)) in
  let path_list := filter nonempty (Py.split sep (abspath cwd p)) in
  let i := common_prefix_len start_list path_list in
  let rel_list := repeat ".." (List.length start_list - i) ++ skipn i path_list in
  match rel_list with
  | [] => "."
  | _ => Py.join_with "/" rel_list
  end.

End posixpath.

(** ** Ignore-rule matcher *)

Section Matcher.

(** [fnmatch.fnmatch name pattern] *)
Variable fnmatch : string -> string -> bool.
(** [os.getcwd()] *)
Variable cwd : string.

(** The body of the [for pattern in ignore_patterns] test of [should_ignore]. *)
Definition pattern_hits (path base_path pattern : string) : bool :=
  let name := posixpath.basename path in
  let rel_path := posixpath.relpath cwd path base_path in
  let abs_path := posixpath.abspath cwd path in
  (fnmatch name pattern
   || fnmatch rel_path pattern
   || fnmatch abs_path pattern
   || (Py.startswith pattern "/"
       && fnmatch abs_path (posixpath.join base_path (Py.tail pattern)))
   || Py.any (fun part => fnmatch part pattern) (Py.split posixpath.sep rel_path))%bool.

(** [should_ignore(path, base_path, ignore_patterns)]: the loop returns at
    the first pattern that hits. *)
Fixpoint should_ignore (path base_path : string) (ignore_patterns : list string) : bool :=
  match ignore_patterns with
  | [] => false
  | pattern :: rest =>
      if pattern_hits path base_path pattern then true
      else should_ignore path base_path rest
  end.

End Matcher.

(** ** Text classifier *)

(** What the program can learn about a regular file: its bytes, or, when
    [open] raises [IOError], only its size. *)
Inductive fdata :=
| Readable (bytes : list byte)
| Unreadable (size : nat).

(** [os.path.getsize] *)
Definition getsize (d : fdata) : nat :=
  match d with
  | Readable bytes => List.length bytes
  | Unreadable size => size
  end.

(** The [delete] table of [is_text_file]:
    [bytes([7, 8, 9, 10, 12, 13, 27] + list(range(0x20, 0x100)))]. *)
Definition text_characters : list N :=
  ([7; 8; 9; 10; 12; 13; 27] ++ map N.of_nat (seq 32 (256 - 32)))%N.

(** [chunk.translate(None, delete)]: drop every byte listed in [delete]. *)
Definition translate_delete (chunk : list byte) (delete : list N) : list byte :=
  filter (fun b => negb (existsb (N.eqb (Byte.to_N b)) delete)) chunk.

(** [is_text_file(file_path)] *)
Definition is_text_file (d : fdata) : bool :=
  match d with
  | Readable bytes =>
      let chunk := firstn 1024 bytes in
      match translate_delete chunk text_characters with
      | [] => true
      | _ :: _ => false
      end
  | Unreadable _ => false
  end.

(** ** The scanned file system *)

(** A directory entry is a regular file ([os.path.isfile]), a directory
    ([os.path.isdir]) or something else (a socket, a dangling link).
    [os.listdir] of a directory either raises [PermissionError] or returns
    the entries, in some fixed order. *)
Inductive fsnode :=
| RegularFile (d : fdata)
| Directory (l : listing)
| Special
with listing :=
| PermissionDenied
| Entries (es : entries)
with entries :=
| ENil
| ECons (item : string) (n : fsnode) (rest : entries).

Scheme fsnode_mut := Induction for fsnode Sort Prop
  with listing_mut := Induction for listing Sort Prop
  with entries_mut := Induction for entries Sort Prop.

Definition isfile (n : fsnode) : bool :=
  match n with RegularFile _ => true | _ => false end.

Definition isdir (n : fsnode) : bool :=
  match n with Directory _ => true | _ => false end.

(** ** The tree model *)

Set Warnings "-register-all".

(** The numeric keys of a directory dictionary. *)
Record totals := Totals {
  size : nat;
  total_tokens : nat;
  file_count : nat;
  dir_count : nat;
  text_content_size : nat;
  total_text_size : nat
}.

(** A file dictionary [{name, type: "file", size, tokens, content,
    is_ignored}] or a directory dictionary [{name, type: "directory", size,
    children, total_tokens, file_count, dir_count, text_content_size,
    total_text_size}], whose key [is_ignored] is only set by the parent that
    lists it (so the root has none). *)
Inductive node :=
| FileNode (name : string) (fsize tokens : nat) (content : string) (is_ignored : bool)
| DirNode (name : string) (agg : totals) (children : list node) (is_ignored : option bool).

Definition node_name (nd : node) : string :=
  match nd with
  | FileNode name _ _ _ _ => name
  | DirNode name _ _ _ => name
  end.

(** [node.get("is_ignored", False)] *)
Definition node_is_ignored (nd : node) : bool :=
  match nd with
  | FileNode _ _ _ _ ig => ig
  | DirNode _ _ _ ig => match ig with Some b => b | None => false end
  end.

Definition node_children (nd : node) : list node :=
  match nd with
  | FileNode _ _ _ _ _ => []
  | DirNode _ _ cs _ => cs
  end.

(** ** Definition extractor *)

Definition newline : string := String (ascii_of_nat 10) EmptyString.

Definition non_text_sentinel : string := "[Non-text file]".

Definition class_pattern : string :=
  "^\s*class\s+\w+.*?:(.*?)(?=\n^\s*class\s+\w+.*?:|\n^\s*def\s+\w+\(.*?\):|\Z)".

Definition function_pattern : string :=
  "^\s*def\s+\w+\(.*?\):(.*?)(?=\n^\s*class\s+\w+.*?:|\n^\s*def\s+\w+\(.*?\):|\Z)".

Section Extractor.

(** [finditer pat content] is
    [[m.group(0) for m in re.compile(pat, re.DOTALL | re.MULTILINE).finditer(content)]]. *)
Variable finditer : string -> string -> list string.

(** One iteration of either [for match in ...] loop. *)
Definition keep_definition (filter_patterns : list string)
           (extracted_content definition : string) : string :=
  if Py.any (fun pattern => Py.str_in pattern definition) filter_patterns
  then (extracted_content ++ definition ++ newline ++ newline)%string
  else extracted_content.

(** [extract_classes_and_functions(content, filter_patterns)] *)
Definition extract_classes_and_functions (content : string)
           (filter_patterns : list string) : string :=
  let extracted_content := "" in
  let extracted_content :=
    fold_left (keep_definition filter_patterns)
              (finditer class_pattern content) extracted_content in
  let extracted_content :=
    fold_left (keep_definition filter_patterns)
              (finditer function_pattern content) extracted_content in
  extracted_content.

End Extractor.

(** ** Tree builder *)

Section Builder.

Variable fnmatch : string -> string -> bool.
Variable cwd : string.
(** [count_tokens(text)]: the length of the [cl100k_base] encoding, or 0 when
    the encoder fails. *)
Variable count_tokens : string -> nat.
(** What [f.read()] returns for a file opened with
    [encoding='utf-8', errors='ignore']. *)
Variable decode : list byte -> string.
(** [str(e)] for the exception raised by [open] on an unreadable file. *)
Variable strerror : string.
Variable finditer : string -> string -> list string.

(** The arguments of [analyze_directory] that every recursive call passes on
    unchanged. *)
Variable ignore_patterns : list string.
Variable base_path : string.
Variable include_git : bool.
Variable max_depth : option Z.
Variable filter_patterns : option (list string).
Variable extract_definitions : bool.

(** [read_file_content(file_path)] *)
Definition read_file_content (d : fdata) : string :=
  match d with
  | Readable bytes => decode bytes
  | Unreadable _ => ("Error reading file: " ++ strerror)%string
  end.

(** [max_depth is not None and current_depth > max_depth] *)
Definition too_deep (current_depth : Z) : bool :=
  match max_depth with
  | Some m => (m <? current_depth)%Z
  | None => false
  end.

(** The [if filter_patterns:] block applied to the content of a text file:
    [None] when the loop body hits one of its two [continue]s, otherwise the
    content the file node will carry. *)
Definition filtered_content (content : string) : option string :=
  match filter_patterns with
  | Some ((_ :: _) as patterns) =>
      let matches_filter := Py.all (fun pattern => Py.str_in pattern content) patterns in
      if negb matches_filter then None
      else if extract_definitions then
        let content := extract_classes_and_functions finditer content patterns in
        if String.eqb content "" then None else Some content
      else Some content
  | _ => Some content
  end.

Definition zero_totals : totals := Totals 0 0 0 0 0 0.

Definition add_total_text_size (result : totals) (file_size : nat) : totals :=
  Totals (size result) (total_tokens result) (file_count result) (dir_count result)
         (text_content_size result) (total_text_size result + file_size).

(** The updates of [result] after a file child is appended. *)
Definition add_file (result : totals) (file_size tokens : nat)
           (is_text : bool) (content : string) : totals :=
  Totals (size result + file_size)
         (total_tokens result + tokens)
         (file_count result + 1)
         (dir_count result)
         (if is_text then text_content_size result + String.length content
          else text_content_size result)
         (total_text_size result).

(** The updates of [result] after a subdirectory is appended. *)
Definition add_subdir (result subdir : totals) : totals :=
  Totals (size result + size subdir)
         (total_tokens result + total_tokens subdir)
         (file_count result + file_count subdir)
         (dir_count result + (1 + dir_count subdir))
         (text_content_size result + text_content_size subdir)
         (total_text_size result).

(** [analyze_directory(path, ..., current_depth, ...)] on a directory whose
    listing is [l], and the [for item in os.listdir(path)] loop [scan], which
    threads the dictionary under construction ([result] and its [children])
    and the flag [has_matching_files]. *)
Fixpoint analyze_directory (path : string) (current_depth : Z) (l : listing)
         {struct l} : option node :=
  if too_deep current_depth then None
  else
    let '(result, children, has_matching_files) :=
      match l with
      | PermissionDenied => (zero_totals, [], false)
      | Entries es => scan path current_depth es zero_totals [] false
      end in
    if negb has_matching_files then None
    else Some (DirNode (posixpath.basename path) result children None)

with scan (path : string) (current_depth : Z) (es : entries)
          (result : totals) (children : list node) (has_matching_files : bool)
          {struct es} : totals * list node * bool :=
  match es with
  | ENil => (result, children, has_matching_files)
  | ECons item n rest =>
      let item_path := posixpath.join path item in
      if (String.eqb item ".git" && negb include_git)%bool
      then scan path current_depth rest result children has_matching_files
      else
        let is_ignored := should_ignore fnmatch cwd item_path base_path ignore_patterns in
        let result :=
          match n with
          | RegularFile d =>
              if is_text_file d then add_total_text_size result (getsize d) else result
          | _ => result
          end in
        if is_ignored
        then scan path current_depth rest result children has_matching_files
        else
          match n with
          | RegularFile d =>
              let file_size := getsize d in
              let is_text := is_text_file d in
              if is_text then
                match filtered_content (read_file_content d) with
                | None => scan path current_depth rest result children has_matching_files
                | Some content =>
                    let tokens := count_tokens content in
                    let child := FileNode item file_size tokens content is_ignored in
                    scan path current_depth rest
                         (if is_ignored then result
                          else add_file result file_size tokens is_text content)
                         (children ++ [child]) true
                end
              else
                let content := non_text_sentinel in
                let tokens := 0 in
                let child := FileNode item file_size tokens content is_ignored in
                scan path current_depth rest
                     (if is_ignored then result
                      else add_file result file_size tokens is_text content)
                     (children ++ [child]) has_matching_files
          | Directory l' =>
              match analyze_directory item_path (current_depth + 1) l' with
              | Some (DirNode name agg ((_ :: _) as sub_children) _) =>
                  let subdir := DirNode name agg sub_children (Some is_ignored) in
                  if is_ignored
                  then scan path current_depth rest result (children ++ [subdir])
                            has_matching_files
                  else scan path current_depth rest (add_subdir result agg)
                            (children ++ [subdir]) true
              | _ => scan path current_depth rest result children has_matching_files
              end
          | Special => scan path current_depth rest result children has_matching_files
          end
  end.

End Builder.

(** ** Vocabulary of the specification *)

(** *** Text classification *)

Definition control_bytes : list N := [7; 8; 9; 10; 12; 13; 27]%N.

(** A byte the classifier accepts: one of the seven control bytes, or in
    the range 0x20-0xFF. *)
Definition text_byte (b : byte) : Prop :=
  In (Byte.to_N b) control_bytes \/ (32 <= Byte.to_N b <= 255)%N.

(** *** Directory listings *)

Fixpoint names (es : entries) : list string :=
  match es with
  | ENil => []
  | ECons item _ rest => item :: names rest
  end.

(** The entry called [item], if any. *)
Fixpoint lookup (item : string) (es : entries) : option fsnode :=
  match es with
  | ENil => None
  | ECons item' n rest => if String.eqb item item' then Some n else lookup item rest
  end.

(** A file name as a file system hands it out: not empty, no slash. *)
Fixpoint has_sep (s : string) : bool :=
  match s with
  | EmptyString => false
  | String c rest => (Ascii.eqb c posixpath.sep || has_sep rest)%bool
  end.

Definition valid_name (item : string) : bool :=
  (negb (String.eqb item "") && negb (has_sep item))%bool.

(** Every directory of the tree lists valid names, each once. *)
Fixpoint wf_fsnode (n : fsnode) : bool :=
  match n with
  | Directory l => wf_listing l
  | _ => true
  end
with wf_listing (l : listing) : bool :=
  match l with
  | PermissionDenied => true
  | Entries es => wf_entries es
  end
with wf_entries (es : entries) : bool :=
  match es with
  | ENil => true
  | ECons item n rest =>
      (valid_name item && negb (existsb (String.eqb item) (names rest))
       && wf_fsnode n && wf_entries rest)%bool
  end.

Definition entries_of (l : listing) : entries :=
  match l with
  | PermissionDenied => ENil
  | Entries es => es
  end.

(** *** Aggregation *)

Definition included (c : node) : bool := negb (node_is_ignored c).

(** What a child contributes to each aggregate of its parent. *)
Definition child_size (c : node) : nat :=
  match c with
  | FileNode _ fsize _ _ _ => fsize
  | DirNode _ agg _ _ => size agg
  end.

Definition child_tokens (c : node) : nat :=
  match c with
  | FileNode _ _ tokens _ _ => tokens
  | DirNode _ agg _ _ => total_tokens agg
  end.

Definition child_files (c : node) : nat :=
  match c with
  | FileNode _ _ _ _ _ => 1
  | DirNode _ agg _ _ => file_count agg
  end.

Definition child_dirs (c : node) : nat :=
  match c with
  | FileNode _ _ _ _ _ => 0
  | DirNode _ agg _ _ => 1 + dir_count agg
  end.

(** The text content of a file child is its [content] when the file it was
    built from is a text file; a non-text file has none.  The node does not
    record which it is, the entry [es] lists under its name does. *)
Definition child_text (es : entries) (c : node) : nat :=
  match c with
  | FileNode name _ _ content _ =>
      match lookup name es with
      | Some (RegularFile d) => if is_text_file d then String.length content else 0
      | _ => 0
      end
  | DirNode _ agg _ _ => text_content_size agg
  end.

(** The sum of [f] over the non-ignored children. *)
Definition sum_included (f : node -> nat) (cs : list node) : nat :=
  list_sum (map f (filter included cs)).

(** The aggregation invariant for the node [nd] built from listing [l], at
    every level: each directory child is checked against the listing of the
    entry of its name. *)
Fixpoint aggregated (l : listing) (nd : node) {struct nd} : Prop :=
  match nd with
  | FileNode _ _ _ _ _ => True
  | DirNode _ agg cs _ =>
      size agg = sum_included child_size cs /\
      total_tokens agg = sum_included child_tokens cs /\
      file_count agg = sum_included child_files cs /\
      dir_count agg = sum_included child_dirs cs /\
      text_content_size agg = sum_included (child_text (entries_of l)) cs /\
      (fix each (cs : list node) : Prop :=
         match cs with
         | [] => True
         | c :: cs' =>
             match c with
             | FileNode _ _ _ _ _ => True
             | DirNode name _ _ _ =>
                 match lookup name (entries_of l) with
                 | Some (Directory l') => aggregated l' c
                 | _ => False
                 end
             end /\ each cs'
         end) cs
  end.

(** *** Pruning *)

(** No directory node of the tree has an empty [children] list. *)
Fixpoint no_empty_dir (nd : node) : Prop :=
  match nd with
  | FileNode _ _ _ _ _ => True
  | DirNode _ _ cs _ =>
      cs <> [] /\
      (fix each (cs : list node) : Prop :=
         match cs with
         | [] => True
         | c :: cs' => no_empty_dir c /\ each cs'
         end) cs
  end.

(** No node below the root of the tree carries [is_ignored = True]. *)
Fixpoint none_ignored (nd : node) : bool :=
  match nd with
  | FileNode _ _ _ _ _ => true
  | DirNode _ _ cs _ =>
      (fix each (cs : list node) : bool :=
         match cs with
         | [] => true
         | c :: cs' => (included c && none_ignored c && each cs')%bool
         end) cs
  end.

(** *** Whole-tree text size *)

(** The sum of the sizes of all text files below a directory, whatever the
    ignore rules say. *)
Fixpoint text_size_fsnode (n : fsnode) : nat :=
  match n with
  | RegularFile d => if is_text_file d then getsize d else 0
  | Directory l => text_size_listing l
  | Special => 0
  end
with text_size_listing (l : listing) : nat :=
  match l with
  | PermissionDenied => 0
  | Entries es => text_size_entries es
  end
with text_size_entries (es : entries) : nat :=
  match es with
  | ENil => 0
  | ECons _ n rest => text_size_fsnode n + text_size_entries rest
  end.

(** *** What a traversal reaches *)

Section Reach.

Variable fnmatch : string -> string -> bool.
Variable cwd : string.
Variable decode : list byte -> string.
Variable strerror : string.
Variable finditer : string -> string -> list string.
Variable ignore_patterns : list string.
Variable base_path : string.
Variable include_git : bool.
Variable max_depth : option Z.
Variable filter_patterns : option (list string).
Variable extract_definitions : bool.

(** The paths the traversal encounters: those it evaluates the ignore rules
    on.  An ignored directory, a directory beyond [max_depth] and the
    [.git] entry (unless included) are not descended into. *)
Fixpoint encountered (path : string) (current_depth : Z) (l : listing)
         {struct l} : list string :=
  if too_deep max_depth current_depth then []
  else match l with
       | PermissionDenied => []
       | Entries es => encountered_in path current_depth es
       end
with encountered_in (path : string) (current_depth : Z) (es : entries)
         {struct es} : list string :=
  match es with
  | ENil => []
  | ECons item n rest =>
      let item_path := posixpath.join path item in
      if (String.eqb item ".git" && negb include_git)%bool
      then encountered_in path current_depth rest
      else
        item_path ::
        (if should_ignore fnmatch cwd item_path base_path ignore_patterns then []
         else match n with
              | Directory l' => encountered item_path (current_depth + 1) l'
              | _ => []
              end)
        ++ encountered_in path current_depth rest
  end.

(** The paths of the text files the traversal reaches un-ignored and that
    pass the content filter (and, when extraction runs, yield a non-empty
    extract). *)
Fixpoint matching_files (path : string) (current_depth : Z) (l : listing)
         {struct l} : list string :=
  if too_deep max_depth current_depth then []
  else match l with
       | PermissionDenied => []
       | Entries es => matching_files_in path current_depth es
       end
with matching_files_in (path : string) (current_depth : Z) (es : entries)
         {struct es} : list string :=
  match es with
  | ENil => []
  | ECons item n rest =>
      let item_path := posixpath.join path item in
      if (String.eqb item ".git" && negb include_git)%bool
      then matching_files_in path current_depth rest
      else if should_ignore fnmatch cwd item_path base_path ignore_patterns
      then matching_files_in path current_depth rest
      else
        match n with
        | RegularFile d =>
            if is_text_file d then
              match filtered_content finditer filter_patterns extract_definitions
                                     (read_file_content decode strerror d) with
              | Some _ => [item_path]
              | None => []
              end
            else []
        | Directory l' => matching_files item_path (current_depth + 1) l'
        | Special => []
        end ++ matching_files_in path current_depth rest
  end.

End Reach.

(** Every entry of the listing is a regular file that is not text. *)
Fixpoint only_binary_files (es : entries) : bool :=
  match es with
  | ENil => true
  | ECons _ (RegularFile d) rest => (negb (is_text_file d) && only_binary_files rest)%bool
  | ECons _ _ _ => false
  end.

(** The sizes of the text files a directory lists itself, [.git] apart
    unless included. *)
Fixpoint direct_text_size (include_git : bool) (es : entries) : nat :=
  match es with
  | ENil => 0
  | ECons item n rest =>
      (if (String.eqb item ".git" && negb include_git)%bool then 0
       else match n with
            | RegularFile d => if is_text_file d then getsize d else 0
            | _ => 0
            end)
      + direct_text_size include_git rest
  end.

(** ** Reference instances of the library functions

    Executable stand-ins used to run the model on concrete inputs.  They
    agree with the Python library on ASCII data: [Glob.fnmatch] on patterns
    without bracket expressions, [Regex.finditer] on the two patterns of
    [extract_classes_and_functions]. *)

Module Glob.

(** [fnmatch] for patterns made of literals, [?] and [*]. *)
Fixpoint fnmatch_chars (pattern name : list ascii) {struct pattern} : bool :=
  match pattern with
  | [] => match name with [] => true | _ => false end
  | c :: pattern' =>
      if Ascii.eqb c "*" then
        (fix star (name : list ascii) : bool :=
           (fnmatch_chars pattern' name
            || match name with
               | [] => false
               | _ :: name' => star name'
               end)%bool) name
      else match name with
           | [] => false
           | d :: name' =>
               ((Ascii.eqb c "?" || Ascii.eqb c d) && fnmatch_chars pattern' name')%bool
           end
  end.

Definition fnmatch (name pattern : string) : bool :=
  fnmatch_chars (list_ascii_of_string pattern) (list_ascii_of_string name).

End Glob.

Module Regex.

(** The constructs the two patterns use.  [Star] and [Plus] repeat a
    character class, greedily or lazily. *)
Inductive re :=
| Lit (s : string)
| Bol
| Eos
| Star (greedy : bool) (cls : ascii -> bool)
| Plus (greedy : bool) (cls : ascii -> bool)
| Seq (r1 r2 : re)
| Alt (r1 r2 : re)
| Ahead (r : re).

Definition code (c : ascii) : nat := nat_of_ascii c.

(** [\s], [\w] and (under [re.DOTALL]) [.] *)
Definition space (c : ascii) : bool :=
  let n := code c in
  (Nat.leb 9 n && Nat.leb n 13 || Nat.leb 28 n && Nat.leb n 32)%bool.

Definition word (c : ascii) : bool :=
  let n := code c in
  (Nat.leb 48 n && Nat.leb n 57 || Nat.leb 65 n && Nat.leb n 90
   || Nat.leb 97 n && Nat.leb n 122 || Nat.eqb n 95)%bool.

Definition dot (c : ascii) : bool := true.

(** Under [re.MULTILINE], [^] matches at the start and after a newline. *)
Definition at_line_start (prev : option ascii) : bool :=
  match prev with
  | None => true
  | Some c => Nat.eqb (code c) 10
  end.

Fixpoint strip (l s : string) (prev : option ascii) : option (option ascii * string) :=
  match l with
  | EmptyString => Some (prev, s)
  | String a l' =>
      match s with
      | EmptyString => None
      | String b s' => if Ascii.eqb a b then strip l' s' (Some b) else None
      end
  end.

(** Backtracking matcher in continuation-passing style: [prev] is the
    character before the current position, [s] what is left of the subject,
    and [k] is handed the position where this piece ends. *)
Fixpoint run (r : re) (prev : option ascii) (s : string)
         (k : option ascii -> string -> option string) {struct r} : option string :=
  match r with
  | Lit l =>
      match strip l s prev with
      | Some (prev', s') => k prev' s'
      | None => None
      end
  | Bol => if at_line_start prev then k prev s else None
  | Eos => match s with EmptyString => k prev s | _ => None end
  | Star greedy cls =>
      (fix star (prev : option ascii) (s : string) {struct s} : option string :=
         let more :=
           match s with
           | String a s' => if cls a then star (Some a) s' else None
           | EmptyString => None
           end in
         if greedy then
           match more with Some e => Some e | None => k prev s end
         else
           match k prev s with Some e => Some e | None => more end) prev s
  | Plus greedy cls =>
      match s with
      | String a s' =>
          if cls a then
            (fix star (prev : option ascii) (s : string) {struct s} : option string :=
               let more :=
                 match s with
                 | String a s' => if cls a then star (Some a) s' else None
                 | EmptyString => None
                 end in
               if greedy then
                 match more with Some e => Some e | None => k prev s end
               else
                 match k prev s with Some e => Some e | None => more end) (Some a) s'
          else None
      | EmptyString => None
      end
  | Seq r1 r2 => run r1 prev s (fun prev' s' => run r2 prev' s' k)
  | Alt r1 r2 =>
      match run r1 prev s k with
      | Some e => Some e
      | None => run r2 prev s k
      end
  | Ahead r' =>
      match run r' prev s (fun _ s' => Some s') with
      | Some _ => k prev s
      | None => None
      end
  end.

(** The match starting at the current position, as what is left after it. *)
Definition match_here (r : re) (prev : option ascii) (s : string) : option string :=
  run r prev s (fun _ s' => Some s').

(** Left-to-right scan for non-overlapping matches; [skip] counts the
    characters still inside the previous match. *)
Fixpoint matches (r : re) (prev : option ascii) (s : string) (skip : nat)
         {struct s} : list string :=
  match skip with
  | S skip' =>
      match s with
      | String a s' => matches r (Some a) s' skip'
      | EmptyString => []
      end
  | O =>
      match match_here r prev s with
      | Some rest =>
          let n := String.length s - String.length rest in
          substring 0 n s ::
          match s with
          | String a s' => matches r (Some a) s' (n - 1)
          | EmptyString => []
          end
      | None =>
          match s with
          | String a s' => matches r (Some a) s' 0
          | EmptyString => []
          end
      end
  end.

Definition seq_all (rs : list re) : re :=
  match rs with
  | [] => Lit ""
  | r :: rs' => fold_left Seq rs' r
  end.

(** [^\s*class\s+\w+.*?:] *)
Definition class_intro : re :=
  seq_all [Bol; Star true space; Lit "class"; Plus true space; Plus true word;
           Star false dot; Lit ":"].

(** [^\s*def\s+\w+\(.*?\):] *)
Definition def_intro : re :=
  seq_all [Bol; Star true space; Lit "def"; Plus true space; Plus true word;
           Lit "("; Star false dot; Lit "):"].

(** [(.*?)(?=\n^\s*class\s+\w+.*?:|\n^\s*def\s+\w+\(.*?\):|\Z)] *)
Definition body : re :=
  Seq (Star false dot)
      (Ahead (Alt (Seq (Lit newline) class_intro)
                  (Alt (Seq (Lit newline) def_intro) Eos))).

Definition class_re : re := Seq class_intro body.
Definition function_re : re := Seq def_intro body.

(** [finditer] for the two compiled patterns. *)
Definition finditer (pattern content : string) : list string :=
  if String.eqb pattern class_pattern then matches class_re None content 0
  else if String.eqb pattern function_pattern then matches function_re None content 0
  else [].

End Regex.

Module Reference.

(** Latin-1 decoding; on ASCII bytes without carriage returns it is what
    Python's UTF-8 text mode returns. *)
Definition decode (bytes : list byte) : string := string_of_list_byte bytes.

(** One token per space-separated word; the engine only ever sums these. *)
Definition count_tokens (text : string) : nat :=
  List.length (filter posixpath.nonempty (Py.split " " text)).

Definition cwd : string := "/home/user".
Definition strerror : string := "[Errno 13] Permission denied".

Definition bytes_of (s : string) : list byte := list_byte_of_string s.

End Reference.

(** ** One iteration of the listing loop

    [visit] is the body of the [for item in os.listdir(path)] loop of
    [analyze_directory] as a function of the loop state, with the result of
    the recursive call on a subdirectory handed in as [subdir].  The
    properties below reason about [scan] one [visit] at a time (lemma
    [scan_cons]). *)

Section LoopBody.

Variable fnmatch : string -> string -> bool.
Variable cwd : string.
Variable count_tokens : string -> nat.
Variable decode : list byte -> string.
Variable strerror : string.
Variable finditer : string -> string -> list string.
Variable ignore_patterns : list string.
Variable base_path : string.
Variable include_git : bool.
Variable max_depth : option Z.
Variable filter_patterns : option (list string).
Variable extract_definitions : bool.

Definition loop_state : Type := (totals * list node * bool)%type.

Definition visit (item_path item : string) (n : fsnode) (subdir : option node)
           (st : loop_state) : loop_state :=
  let '(result, children, has_matching_files) := st in
  if (String.eqb item ".git" && negb include_git)%bool then st
  else
    let is_ignored := should_ignore fnmatch cwd item_path base_path ignore_patterns in
    let result :=
      match n with
      | RegularFile d =>
          if is_text_file d then add_total_text_size result (getsize d) else result
      | _ => result
      end in
    if is_ignored then (result, children, has_matching_files)
    else
      match n with
      | RegularFile d =>
          if is_text_file d then
            match filtered_content finditer filter_patterns extract_definitions
                                   (read_file_content decode strerror d) with
            | None => (result, children, has_matching_files)
            | Some content =>
                (add_file result (getsize d) (count_tokens content) true content,
                 children ++ [FileNode item (getsize d) (count_tokens content) content false],
                 true)
            end
          else
            (add_file result (getsize d) 0 false non_text_sentinel,
             children ++ [FileNode item (getsize d) 0 non_text_sentinel false],
             has_matching_files)
      | Directory _ =>
          match subdir with
          | Some (DirNode name agg ((_ :: _) as sub_children) _) =>
              (add_subdir result agg,
               children ++ [DirNode name agg sub_children (Some false)],
               true)
          | _ => (result, children, has_matching_files)
          end
      | Special => (result, children, has_matching_files)
      end.

(** The recursive call the loop makes when [item] is a subdirectory. *)
Definition recursive_call (path : string) (current_depth : Z) (item : string)
           (n : fsnode) : option node :=
  match n with
  | Directory l' =>
      analyze_directory fnmatch cwd count_tokens decode strerror finditer
                        ignore_patterns base_path include_git max_depth
                        filter_patterns extract_definitions
                        (posixpath.join path item) (current_depth + 1) l'
  | _ => None
  end.

(** [r'] has the aggregates of [r]; [total_text_size] may differ. *)
Definition same_aggregates (r r' : totals) : Prop :=
  size r' = size r /\ total_tokens r' = total_tokens r /\
  file_count r' = file_count r /\ dir_count r' = dir_count r /\
  text_content_size r' = text_content_size r.

(** The four things an iteration can do to the loop state [(r, cs, has)]:
    leave the tree alone, append a text file, append a non-text file, or
    append a subdirectory. *)
Inductive visit_outcome (item : string) (n : fsnode) (subdir : option node)
          (r : totals) (cs : list node) (has : bool) : loop_state -> Prop :=
| Skipped (r' : totals) :
    same_aggregates r r' ->
    visit_outcome item n subdir r cs has (r', cs, has)
| TextFile (d : fdata) (content : string) (r0 : totals) :
    n = RegularFile d ->
    is_text_file d = true ->
    filtered_content finditer filter_patterns extract_definitions
                     (read_file_content decode strerror d) = Some content ->
    same_aggregates r r0 ->
    visit_outcome item n subdir r cs has
      (add_file r0 (getsize d) (count_tokens content) true content,
       cs ++ [FileNode item (getsize d) (count_tokens content) content false],
       true)
| BinaryFile (d : fdata) (r0 : totals) :
    n = RegularFile d ->
    is_text_file d = false ->
    same_aggregates r r0 ->
    visit_outcome item n subdir r cs has
      (add_file r0 (getsize d) 0 false non_text_sentinel,
       cs ++ [FileNode item (getsize d) 0 non_text_sentinel false],
       has)
| SubDirectory (l' : listing) (name : string) (agg : totals) (c : node)
               (sub : list node) (ig : option bool) (r0 : totals) :
    n = Directory l' ->
    subdir = Some (DirNode name agg (c :: sub) ig) ->
    same_aggregates r r0 ->
    visit_outcome item n subdir r cs has
      (add_subdir r0 agg, cs ++ [DirNode name agg (c :: sub) (Some false)], true).

End LoopBody.

(** [entry_of item n es]: the listing [es] has an entry [item] for [n]. *)
Fixpoint entry_of (item : string) (n : fsnode) (es : entries) : Prop :=
  match es with
  | ENil => False
  | ECons item' n' rest => (item' = item /\ n' = n) \/ entry_of item n rest
  end.

(** A directory child agrees with the listing of the entry of its name. *)
Definition child_aggregated (es : entries) (c : node) : Prop :=
  match c with
  | FileNode _ _ _ _ _ => True
  | DirNode name _ _ _ =>
      match lookup name es with
      | Some (Directory l') => aggregated l' c
      | _ => False
      end
  end.

(** ** Loop invariants *)

(** Pruning: the flag is only set once a child is listed, and no listed
    directory is empty. *)
Definition pruned_state (cs : list node) (has : bool) : Prop :=
  (has = true -> cs <> []) /\ Forall no_empty_dir cs.

(** Aggregation: the totals under construction are the sums over the
    children listed so far, each of which is aggregated itself. *)
Definition aggregated_state (es : entries) (r : totals) (cs : list node) : Prop :=
  size r = sum_included child_size cs /\
  total_tokens r = sum_included child_tokens cs /\
  file_count r = sum_included child_files cs /\
  dir_count r = sum_included child_dirs cs /\
  text_content_size r = sum_included (child_text es) cs /\
  Forall (child_aggregated es) cs.

(** ** Further vocabulary *)

(** Each name occurs once in the listing. *)
Fixpoint unique_names (es : entries) : bool :=
  match es with
  | ENil => true
  | ECons item _ rest =>
      (negb (existsb (String.eqb item) (names rest)) && unique_names rest)%bool
  end.

(** [''.join(parts)] *)
Definition cat (parts : list string) : string :=
  fold_right String.append EmptyString parts.

(** A definition block followed by the blank-line separator. *)
Definition with_blank_line (block : string) : string :=
  (block ++ newline ++ newline)%string.

(** The block contains at least one of the required substrings. *)
Definition mentions_any (patterns : list string) (block : string) : bool :=
  existsb (fun pattern => Py.str_in pattern block) patterns.

(** ** Sample directories *)

Module Samples.

Import Reference.

(** The call [main] makes: the scan root is its own base path, depth 0, no
    depth limit, [.git] left out. *)
Definition digest (ignore_patterns : list string) (filter_patterns : option (list string))
           (extract_definitions : bool) (path : string) (l : listing) : option node :=
  analyze_directory Glob.fnmatch cwd count_tokens decode strerror Regex.finditer
                    ignore_patterns path false None filter_patterns extract_definitions
                    path 0%Z l.

Definition text_file (content : string) : fsnode :=
  RegularFile (Readable (bytes_of content)).

(** [a.py]: a text file of 100 bytes; [b.bin]: a binary file. *)
Definition a_py : fdata := Readable (repeat "#"%byte 99 ++ ["010"%byte]).
Definition b_bin : fdata := Readable [x00; x01; x02; xff].

Definition scenario : listing :=
  Entries (ECons "a.py" (RegularFile a_py) (ECons "b.bin" (RegularFile b_bin) ENil)).

(** [a.txt] (3 bytes) next to [sub/x.txt] (5 bytes). *)
Definition nested : listing :=
  Entries (ECons "a.txt" (text_file "abc")
          (ECons "sub" (Directory (Entries (ECons "x.txt" (text_file "hello") ENil)))
           ENil)).

(** Two binary files and nothing else. *)
Definition binaries : listing :=
  Entries (ECons "b.bin" (RegularFile b_bin)
          (ECons "c.bin" (RegularFile (Readable [x00])) ENil)).

Definition foo_bar_txt : fdata := Readable (bytes_of "foo and bar").

Definition filtered : listing :=
  Entries (ECons "both.txt" (RegularFile foo_bar_txt)
          (ECons "one.txt" (text_file "foo only") ENil)).

(** [uses.py] mentions [helper] outside of any definition; [lib.py] defines
    it. *)
Definition uses_py : fdata :=
  Readable (bytes_of ("import helper" ++ newline ++ "def main():" ++ newline
                      ++ "    pass" ++ newline)).
Definition lib_py : fdata :=
  Readable (bytes_of ("def helper():" ++ newline ++ "    return 1" ++ newline)).

Definition sources : listing :=
  Entries (ECons "uses.py" (RegularFile uses_py)
          (ECons "lib.py" (RegularFile lib_py) ENil)).

End Samples.

(** ** Renderers and the pre-pass

    The consumers of the tree ([generate_tree_string],
    [generate_content_string]), the size estimate made before the traversal
    ([estimate_output_size] and the quick size check of [main]), the loading
    of ignore patterns ([load_gitignore], [load_ignore_patterns]) and the
    banner ([print_frame]).  The box-drawing glyphs are kept as the UTF-8
    bytes of the source; no length is ever taken of them. *)

(** [str(n)] for a non-negative integer. *)
Definition str_of_nat (n : nat) : string := NilEmpty.string_of_uint (Nat.to_uint n).

Section TreeString.

(** [colorama]'s [Fore.GREEN], [Fore.BLUE], [Fore.YELLOW], [Fore.RED] and
    [Style.RESET_ALL]. *)
Variable GREEN BLUE YELLOW RED RESET_ALL : string.

(** The keyword arguments every recursive call passes on unchanged. *)
Variable show_size : bool.
Variable show_ignored : bool.
Variable use_color : bool.

(** A child the loop keeps: every child when [show_ignored] is on, otherwise
    [not child.get("is_ignored", False)]. *)
Definition shown (nd : node) : bool :=
  (show_ignored || negb (node_is_ignored nd))%bool.

(** The line [generate_tree_string] writes for the node itself: connector,
    name, size of a file when asked for, the ignored marker, newline. *)
Definition tree_line (nd : node) (prefix : string) (is_last : bool) : string :=
  let result : string :=
    if use_color then
      (prefix ++ (if is_last then GREEN ++ "└── " else "├── ")
              ++ BLUE ++ node_name nd ++ RESET_ALL)%string
    else (prefix ++ (if is_last then "└── " else "├── ") ++ node_name nd)%string in
  let result : string :=
    match nd with
    | FileNode _ fsize _ _ _ =>
        if show_size then
          let size_str := (" (" ++ str_of_nat fsize ++ " bytes)")%string in
          (result ++ (if use_color then YELLOW ++ size_str ++ RESET_ALL else size_str))%string
        else result
    | DirNode _ _ _ _ => result
    end in
  let result : string :=
    if node_is_ignored nd then
      let ignored_str := " [IGNORED]" in
      (result ++ (if use_color then RED ++ ignored_str ++ RESET_ALL else ignored_str))%string
    else result in
  (result ++ newline)%string.

(** [generate_tree_string(node, prefix, is_last, show_size, show_ignored,
    use_color)].  The source filters the children first when [show_ignored]
    is off and then enumerates them; here the loop walks the unfiltered list,
    skips what the filter drops, and a child is the last one when no later
    child survives the filter (lemma [tree_children_filtered] states the
    loop over the filtered list). *)
Fixpoint generate_tree_string (nd : node) (prefix : string) (is_last : bool)
         {struct nd} : string :=
  if (node_is_ignored nd && negb show_ignored)%bool then ""
  else
    let result := tree_line nd prefix is_last in
    match nd with
    | FileNode _ _ _ _ _ => result
    | DirNode _ _ children _ =>
        let prefix := (prefix ++ (if is_last then "    " else "│   "))%string in
        (result ++
         (fix each (cs : list node) : string :=
            match cs with
            | [] => ""
            | child :: rest =>
                if shown child then
                  (generate_tree_string child prefix
                     (match filter shown rest with
                      | [] => true
                      | _ :: _ => false
                      end)
                   ++ each rest)%string
                else each rest
            end) children)%string
    end.

End TreeString.

(** The number of nodes [generate_tree_string] renders. *)
Fixpoint rendered_nodes (show_ignored : bool) (nd : node) : nat :=
  if (node_is_ignored nd && negb show_ignored)%bool then 0
  else
    match nd with
    | FileNode _ _ _ _ _ => 1
    | DirNode _ _ children _ =>
        1 + (fix each (cs : list node) : nat :=
               match cs with
               | [] => 0
               | child :: rest =>
                   (if shown show_ignored child
                    then rendered_nodes show_ignored child else 0) + each rest
               end) children
    end.

(** Occurrences of the newline character. *)
Fixpoint count_newlines (s : string) : nat :=
  match s with
  | EmptyString => 0
  | String c rest => (if Ascii.eqb c (ascii_of_nat 10) then 1 else 0) + count_newlines rest
  end.

(** No name in the tree contains a newline. *)
Fixpoint names_on_one_line (nd : node) : bool :=
  (Nat.eqb (count_newlines (node_name nd)) 0 &&
   match nd with
   | FileNode _ _ _ _ _ => true
   | DirNode _ _ children _ =>
       (fix each (cs : list node) : bool :=
          match cs with
          | [] => true
          | child :: rest => (names_on_one_line child && each rest)%bool
          end) children
   end)%bool.

(** [generate_content_string(data)]: [add_file_content] returns what the
    source appends to [content]. *)
Fixpoint add_file_content (nd : node) (path : string) {struct nd} : list (string * string) :=
  match nd with
  | FileNode name _ _ content is_ignored =>
      if (negb is_ignored && negb (String.eqb content non_text_sentinel))%bool
      then [(posixpath.join path name, content)]
      else []
  | DirNode name _ children _ =>
      (fix each (cs : list node) : list (string * string) :=
         match cs with
         | [] => []
         | child :: rest => add_file_content child (posixpath.join path name) ++ each rest
         end) children
  end.

Definition generate_content_string (data : node) : list (string * string) :=
  add_file_content data "".

(** The files of a tree, whatever their flags. *)
Fixpoint file_nodes (nd : node) : list node :=
  match nd with
  | FileNode _ _ _ _ _ => [nd]
  | DirNode _ _ children _ =>
      (fix each (cs : list node) : list node :=
         match cs with
         | [] => []
         | child :: rest => file_nodes child ++ each rest
         end) children
  end.

(** The directory nodes strictly below the root of a tree. *)
Fixpoint dirs_below (nd : node) : nat :=
  match nd with
  | FileNode _ _ _ _ _ => 0
  | DirNode _ _ children _ =>
      (fix each (cs : list node) : nat :=
         match cs with
         | [] => 0
         | child :: rest =>
             (match child with
              | FileNode _ _ _ _ _ => 0
              | DirNode _ _ _ _ => 1 + dirs_below child
              end) + each rest
         end) children
  end.

(** Levels of directories in a tree: 0 for a file, 1 for a directory that
    lists only files. *)
Fixpoint height (nd : node) : nat :=
  match nd with
  | FileNode _ _ _ _ _ => 0
  | DirNode _ _ children _ =>
      1 + (fix each (cs : list node) : nat :=
             match cs with
             | [] => 0
             | child :: rest => Nat.max (height child) (each rest)
             end) children
  end.

(** Every node below the root has a name other than [banned]. *)
Fixpoint no_child_named (banned : string) (nd : node) : bool :=
  match nd with
  | FileNode _ _ _ _ _ => true
  | DirNode _ _ children _ =>
      (fix each (cs : list node) : bool :=
         match cs with
         | [] => true
         | child :: rest =>
             (negb (String.eqb (node_name child) banned)
              && no_child_named banned child && each rest)%bool
         end) children
  end.

(** [l1] is [l2] with some elements left out, order kept. *)
Fixpoint subsequence (l1 l2 : list string) : Prop :=
  match l1, l2 with
  | [], _ => True
  | _ :: _, [] => False
  | x :: l1', y :: l2' => (x = y /\ subsequence l1' l2') \/ subsequence l1 l2'
  end.

(** *** The size estimate *)

Section Estimate.

Variable fnmatch : string -> string -> bool.
Variable cwd : string.
Variable ignore_patterns : list string.
Variable base_path : string.

(** The [for file in files] loop of [estimate_output_size] in one directory:
    [os.walk] hands every entry that is not a directory over as a file.  An
    entry that is neither a regular file nor a directory cannot be opened, so
    [is_text_file] answers [False] for it. *)
Fixpoint walk_files (root : string) (es : entries) (acc : nat * nat) : nat * nat :=
  match es with
  | ENil => acc
  | ECons file n rest =>
      let file_path := posixpath.join root file in
      match n with
      | RegularFile d =>
          if (negb (should_ignore fnmatch cwd file_path base_path ignore_patterns)
              && is_text_file d)%bool
          then walk_files root rest (fst acc + getsize d, snd acc + 1)
          else walk_files root rest acc
      | _ => walk_files root rest acc
      end
  end.

(** The [for root, dirs, files in os.walk(path)] loop, top down: the body
    runs for a directory, then for the subdirectories the body kept in
    [dirs], in order.  A directory that cannot be listed yields nothing.
    The state is [(estimated_size, file_count)]. *)
Fixpoint walk (root : string) (l : listing) (acc : nat * nat) {struct l} : nat * nat :=
  match l with
  | PermissionDenied => acc
  | Entries es => walk_dirs root es (walk_files root es acc)
  end
with walk_dirs (root : string) (es : entries) (acc : nat * nat) {struct es} : nat * nat :=
  match es with
  | ENil => acc
  | ECons d n rest =>
      match n with
      | Directory l' =>
          if should_ignore fnmatch cwd (posixpath.join root d) base_path ignore_patterns
          then walk_dirs root rest acc
          else walk_dirs root rest (walk (posixpath.join root d) l' acc)
      | _ => walk_dirs root rest acc
      end
  end.

(** [estimate_output_size(path, ignore_patterns, base_path)] *)
Definition estimate_output_size (path : string) (l : listing) : nat :=
  let '(estimated_size, file_count) := walk path l (0, 0) in
  let estimated_size := estimated_size + file_count * 100 in
  let estimated_size := estimated_size + 1000 in
  estimated_size.

End Estimate.

(** *** Ignore patterns *)

Definition DEFAULT_IGNORE_PATTERNS : list string :=
  ["*.pyc"; "*.pyo"; "*.pyd"; "__pycache__";
   "node_modules"; "bower_components";
   ".git"; ".svn"; ".hg"; ".gitignore";
   "venv"; ".venv"; "env";
   ".idea"; ".vscode";
   "*.log"; "*.bak"; "*.swp"; "*.tmp";
   ".DS_Store";
   "Thumbs.db";
   "build"; "dist";
   "*.egg-info";
   "*.so"; "*.dylib"; "*.dll"].

Section IgnoreFiles.

(** [c.isspace()] for a character. *)
Variable isspace : ascii -> bool.

Fixpoint lstrip (s : string) : string :=
  match s with
  | EmptyString => EmptyString
  | String c rest => if isspace c then lstrip rest else s
  end.

Fixpoint rstrip (s : string) : string :=
  match s with
  | EmptyString => EmptyString
  | String c rest =>
      match rstrip rest with
      | EmptyString => if isspace c then EmptyString else String c EmptyString
      | kept => String c kept
      end
  end.

(** [s.strip()] *)
Definition strip (s : string) : string := rstrip (lstrip s).

(** The comprehension both loaders share:
    [line.strip() for line in f if line.strip() and not line.startswith('#')]. *)
Definition pattern_lines (lines : list string) : list string :=
  map strip
      (filter (fun line => (negb (String.eqb (strip line) "")
                            && negb (Py.startswith line "#"))%bool) lines).


(** [load_ignore_patterns(args, base_path)] with [args.no_default_ignores],
    [args.ignore] and the lines of [base_path/.cdigestignore].  The source
    collects a set; the list holds the same members, and only membership
    matters to [should_ignore]. *)
Definition load_ignore_patterns (no_default_ignores : bool)
           (ignore : option (list string)) (cdigestignore : option (list string))
  : list string :=
  let patterns := [] in
  let patterns := if negb no_default_ignores then patterns ++ DEFAULT_IGNORE_PATTERNS
                  else patterns in
  let patterns := match ignore with
                  | Some ((_ :: _) as extra) => patterns ++ extra
                  | _ => patterns
                  end in
  let patterns := match cdigestignore with
                  | Some lines => patterns ++ pattern_lines lines
                  | None => patterns
                  end in
  patterns.

End IgnoreFiles.

(** *** The banner *)

Section Frame.

(** [Fore.CYAN], [Fore.WHITE] and [Style.RESET_ALL]. *)
Variable CYAN WHITE RESET_ALL : string.

(** [s * n] for a one-character string. *)
Definition times (c : ascii) (n : nat) : string := string_of_list_ascii (repeat c n).

(** [line.ljust(n)] *)
Definition ljust (line : string) (n : nat) : string :=
  (line ++ times " " (n - String.length line))%string.

(** [max(len(line) for line in lines)] over a non-empty list. *)
Definition max_len (lines : list string) : nat :=
  fold_right Nat.max 0 (map String.length lines).

(** [print_frame(text)]: the lines it prints, in order. *)
Definition print_frame (text : string) : list string :=
  let lines := Py.split (ascii_of_nat 10) text in
  let width := max_len lines + 4 in
  [(CYAN ++ "+" ++ times "-" (width - 2) ++ "+")%string]
  ++ map (fun line => (CYAN ++ "| " ++ WHITE ++ ljust line (width - 4) ++ CYAN ++ " |")%string)
         lines
  ++ [(CYAN ++ "+" ++ times "-" (width - 2) ++ "+" ++ RESET_ALL)%string].

End Frame.

(** ** Vocabulary for the tree as a whole *)

(** What a child adds to the directory count of its parent: itself and the
    directories below it. *)
Definition dir_weight (c : node) : nat :=
  match c with
  | FileNode _ _ _ _ _ => 0
  | DirNode _ _ _ _ => 1 + dirs_below c
  end.

(** The totals under construction count the file and directory nodes listed
    so far, at any depth. *)
Definition counted_state (r : totals) (cs : list node) : Prop :=
  file_count r = List.length (flat_map file_nodes cs) /\
  size r = list_sum (map child_size (flat_map file_nodes cs)) /\
  total_tokens r = list_sum (map child_tokens (flat_map file_nodes cs)) /\
  dir_count r = list_sum (map dir_weight cs).

(** The characters of the contents [generate_content_string] emits. *)
Definition emitted_chars (entries : list (string * string)) : nat :=
  list_sum (map (fun entry => String.length (snd entry)) entries).

(** The loop of the source over an enumerated list:
    [for i, x in enumerate(l): result += f(x, i == len(l) - 1)]. *)
Fixpoint concat_marking_last {A} (f : A -> bool -> string) (l : list A) : string :=
  match l with
  | [] => ""
  | x :: rest =>
      (f x (match rest with [] => true | _ :: _ => false end)
       ++ concat_marking_last f rest)%string
  end.

(** The number of text files below a directory, whatever the ignore rules
    say. *)
Fixpoint text_count_fsnode (n : fsnode) : nat :=
  match n with
  | RegularFile d => if is_text_file d then 1 else 0
  | Directory l => text_count_listing l
  | Special => 0
  end
with text_count_listing (l : listing) : nat :=
  match l with
  | PermissionDenied => 0
  | Entries es => text_count_entries es
  end
with text_count_entries (es : entries) : nat :=
  match es with
  | ENil => 0
  | ECons _ n rest => text_count_fsnode n + text_count_entries rest
  end.

(** One listing after another. *)
Fixpoint entries_app (es1 es2 : entries) : entries :=
  match es1 with
  | ENil => es2
  | ECons item n rest => ECons item n (entries_app rest es2)
  end.

(** ** More sample data *)

Module Ansi.

(** The values [colorama] gives its colour constants. *)
Definition esc (code : string) : string := String (ascii_of_nat 27) ("[" ++ code ++ "m").

Definition GREEN : string := esc "32".
Definition BLUE : string := esc "34".
Definition YELLOW : string := esc "33".
Definition RED : string := esc "31".
Definition CYAN : string := esc "36".
Definition WHITE : string := esc "37".
Definition RESET_ALL : string := esc "0".

End Ansi.

Module MoreSamples.

Import Reference Samples.

(** [analyze_directory] from the scan root, with every argument of [main]. *)
Definition digest_with (ignore_patterns : list string) (include_git : bool)
           (max_depth : option Z) (filter_patterns : option (list string))
           (extract_definitions : bool) (path : string) (l : listing) : option node :=
  analyze_directory Glob.fnmatch cwd count_tokens decode strerror Regex.finditer
                    ignore_patterns path include_git max_depth filter_patterns
                    extract_definitions path 0%Z l.

(** A checkout: [README] and [src/main.py] next to [.git/HEAD]. *)
Definition checkout : listing :=
  Entries (ECons ".git" (Directory (Entries (ECons "HEAD" (text_file "ref: refs/heads/main")
                                             ENil)))
          (ECons "README" (text_file "hello")
          (ECons "src" (Directory (Entries (ECons "main.py" (text_file "print(1)") ENil)))
           ENil))).

(** [nested] with an unreadable directory and a socket thrown in. *)
Definition cluttered_head : entries :=
  ECons "a.txt" (text_file "abc") ENil.
Definition cluttered_tail : entries :=
  ECons "sub" (Directory (Entries (ECons "x.txt" (text_file "hello") ENil))) ENil.

(** A tree with an ignored directory and an ignored file in it. *)
Definition flagged_tree : node :=
  DirNode "proj" zero_totals
          [FileNode "a.txt" 3 1 "abc" false;
           DirNode "sub" zero_totals
                   [FileNode "x.txt" 5 1 "hello" true;
                    FileNode "b.bin" 2 0 non_text_sentinel false]
                   (Some true)]
          None.

(** The tree [analyze_directory] builds for [Samples.nested]. *)
Definition nested_tree : node :=
  DirNode "proj" (Totals 8 2 2 1 8 3)
          [FileNode "a.txt" 3 1 "abc" false;
           DirNode "sub" (Totals 5 1 1 0 5 5) [FileNode "x.txt" 5 1 "hello" false]
                   (Some false)]
          None.

(** The lines of an ignore file. *)
Definition ignore_lines : list string :=
  [("*.pyc" ++ newline)%string;
   ("# build output" ++ newline)%string;
   ("  # indented" ++ newline)%string;
   newline;
   ("  build  " ++ newline)%string;
   "dist"].

End MoreSamples.

(** * Properties *)

(** ** Text classifier *)

Lemma text_characters_spec (b : byte) :
  existsb (N.eqb (Byte.to_N b)) text_characters = true <-> text_byte b.
Proof.
  unfold text_characters, text_byte, control_bytes.
  rewrite existsb_exists. split.
  - intros [n [Hin Heq]]. apply N.eqb_eq in Heq. subst n.
    apply in_app_or in Hin. destruct Hin as [Hc | Hr]; [left; exact Hc | right].
    apply in_map_iff in Hr. destruct Hr as [k [Hk Hseq]].
    apply in_seq in Hseq. lia.
  - intros [Hc | Hr].
    + exists (Byte.to_N b). split; [apply in_or_app; left; exact Hc | apply N.eqb_refl].
    + exists (Byte.to_N b). split; [| apply N.eqb_refl].
      apply in_or_app. right. apply in_map_iff.
      exists (N.to_nat (Byte.to_N b)). split; [apply N2Nat.id |].
      apply in_seq. lia.
Qed.

Lemma translate_delete_nil (chunk : list byte) (delete : list N) :
  translate_delete chunk delete = [] <->
  Forall (fun b => existsb (N.eqb (Byte.to_N b)) delete = true) chunk.
Proof.
  unfold translate_delete. induction chunk as [| b chunk IH]; simpl.
  - split; [constructor | reflexivity].
  - destruct (existsb (N.eqb (Byte.to_N b)) delete) eqn:E; simpl.
    + rewrite IH. split; [intro H; constructor; assumption | intro H; inversion H; assumption].
    + split; [discriminate | intro H; inversion H; congruence].
Qed.

Lemma is_text_file_iff (bytes : list byte) :
  is_text_file (Readable bytes) = true <-> Forall text_byte (firstn 1024 bytes).
Proof.
  unfold is_text_file.
  assert (Hnil := translate_delete_nil (firstn 1024 bytes) text_characters).
  destruct (translate_delete (firstn 1024 bytes) text_characters) eqn:E.
  - split; [intros _ | reflexivity].
    apply proj1 in Hnil. specialize (Hnil eq_refl).
    eapply Forall_impl; [| exact Hnil]. intros x Hx. apply text_characters_spec, Hx.
  - split; [discriminate |]. intro H. exfalso.
    assert (Hall : Forall (fun b => existsb (N.eqb (Byte.to_N b)) text_characters = true)
                          (firstn 1024 bytes)).
    { eapply Forall_impl; [| exact H]. intros x Hx. apply text_characters_spec, Hx. }
    apply Hnil in Hall. discriminate.
Qed.

(** C4.  [is_text_file] looks at the first 1024 bytes only and answers true
    exactly when each of them is one of the control bytes 0x07, 0x08, 0x09,
    0x0A, 0x0C, 0x0D, 0x1B or lies in 0x20-0xFF; a sample holding 0x00 is
    binary, the empty file is text, and a file that cannot be opened is
    reported as not text. *)
Theorem is_text_file_classification :
  (forall bytes, is_text_file (Readable bytes) = is_text_file (Readable (firstn 1024 bytes))) /\
  (forall bytes, is_text_file (Readable bytes) = true <-> Forall text_byte (firstn 1024 bytes)) /\
  (forall bytes, In x00 (firstn 1024 bytes) -> is_text_file (Readable bytes) = false) /\
  is_text_file (Readable []) = true /\
  (forall size, is_text_file (Unreadable size) = false).
Proof.
  split; [| split; [| split; [| split]]].
  - intro bytes. unfold is_text_file. rewrite firstn_firstn. reflexivity.
  - exact is_text_file_iff.
  - intros bytes Hin.
    destruct (is_text_file (Readable bytes)) eqn:E; [| reflexivity].
    apply is_text_file_iff in E. rewrite Forall_forall in E.
    specialize (E _ Hin). unfold text_byte, control_bytes in E. simpl in E.
    exfalso. destruct E as [E | E]; [| lia].
    repeat (destruct E as [E | E]; [discriminate |]). exact E.
  - reflexivity.
  - reflexivity.
Qed.

Lemma is_text_file_classification_witness :
  In x00 (firstn 1024 [x61; x00; x62]) /\ is_text_file (Readable [x61; x00; x62]) = false.
Proof.
  split.
  - simpl. right. left. reflexivity.
  - apply (proj1 (proj2 (proj2 is_text_file_classification))).
    simpl. right. left. reflexivity.
Defined.

(** ** Ignore-rule matcher *)

Section MatcherProperties.

Variable fnmatch : string -> string -> bool.
Variable cwd : string.

Lemma pattern_hits_iff (path base_path pattern : string) :
  pattern_hits fnmatch cwd path base_path pattern = true <->
  (fnmatch (posixpath.basename path) pattern = true
   \/ fnmatch (posixpath.relpath cwd path base_path) pattern = true
   \/ fnmatch (posixpath.abspath cwd path) pattern = true
   \/ (exists part,
          In part (Py.split posixpath.sep (posixpath.relpath cwd path base_path))
          /\ fnmatch part pattern = true)
   \/ (Py.startswith pattern "/" = true
       /\ fnmatch (posixpath.abspath cwd path)
                  (posixpath.join base_path (Py.tail pattern)) = true)).
Proof.
  unfold pattern_hits, Py.any.
  rewrite !orb_true_iff, andb_true_iff, existsb_exists. tauto.
Qed.

Lemma should_ignore_exists (path base_path : string) (patterns : list string) :
  should_ignore fnmatch cwd path base_path patterns = true <->
  exists pattern, In pattern patterns
                  /\ pattern_hits fnmatch cwd path base_path pattern = true.
Proof.
  induction patterns as [| p rest IH]; simpl.
  - split; [discriminate | intros [? [[] _]]].
  - destruct (pattern_hits fnmatch cwd path base_path p) eqn:E.
    + split; [intros _; exists p; auto | reflexivity].
    + rewrite IH. split.
      * intros [q [Hin Hq]]. exists q. auto.
      * intros [q [[Heq | Hin] Hq]]; [subst q; congruence | exists q; auto].
Qed.

Lemma should_ignore_false (path base_path : string) (patterns : list string) :
  should_ignore fnmatch cwd path base_path patterns = false <->
  forall pattern, In pattern patterns ->
                  pattern_hits fnmatch cwd path base_path pattern = false.
Proof.
  split.
  - intros H p Hin.
    destruct (pattern_hits fnmatch cwd path base_path p) eqn:E; [| reflexivity].
    assert (should_ignore fnmatch cwd path base_path patterns = true)
      by (apply should_ignore_exists; exists p; auto).
    congruence.
  - intro H.
    destruct (should_ignore fnmatch cwd path base_path patterns) eqn:E; [| reflexivity].
    apply should_ignore_exists in E. destruct E as [p [Hin Hp]].
    rewrite (H p Hin) in Hp. discriminate.
Qed.

(** C7.  [should_ignore] answers true exactly when some pattern of the set
    glob-matches the basename, the path relative to [base_path], the absolute
    path, one segment of the relative path, or, for a pattern that starts
    with a slash, when the absolute path glob-matches [base_path] joined with
    the pattern stripped of that slash.  Nothing negates a match: a larger
    pattern set ignores at least the same paths. *)
Theorem should_ignore_any_pattern (path base_path : string) (patterns : list string) :
  (should_ignore fnmatch cwd path base_path patterns = true <->
   exists pattern,
     In pattern patterns /\
     (fnmatch (posixpath.basename path) pattern = true
      \/ fnmatch (posixpath.relpath cwd path base_path) pattern = true
      \/ fnmatch (posixpath.abspath cwd path) pattern = true
      \/ (exists part,
             In part (Py.split posixpath.sep (posixpath.relpath cwd path base_path))
             /\ fnmatch part pattern = true)
      \/ (Py.startswith pattern "/" = true
          /\ fnmatch (posixpath.abspath cwd path)
                     (posixpath.join base_path (Py.tail pattern)) = true)))
  /\
  (forall more : list string,
      incl patterns more ->
      should_ignore fnmatch cwd path base_path patterns = true ->
      should_ignore fnmatch cwd path base_path more = true).
Proof.
  split.
  - rewrite should_ignore_exists. split.
    + intros [p [Hin Hp]]. exists p. split; [exact Hin |]. apply pattern_hits_iff, Hp.
    + intros [p [Hin Hp]]. exists p. split; [exact Hin |]. apply pattern_hits_iff, Hp.
  - intros more Hincl H. apply should_ignore_exists in H.
    destruct H as [p [Hin Hp]]. apply should_ignore_exists.
    exists p. split; [apply Hincl, Hin | exact Hp].
Qed.

End MatcherProperties.

Lemma should_ignore_any_pattern_witness :
  incl ["*.pyc"] ["node_modules"; "*.pyc"] /\
  should_ignore Glob.fnmatch Reference.cwd "proj/pkg/m.pyc" "proj" ["*.pyc"] = true /\
  should_ignore Glob.fnmatch Reference.cwd "proj/pkg/m.pyc" "proj"
                ["node_modules"; "*.pyc"] = true.
Proof.
  assert (Hincl : incl ["*.pyc"] ["node_modules"; "*.pyc"]).
  { intros p Hp. simpl in *. tauto. }
  assert (Hone : should_ignore Glob.fnmatch Reference.cwd "proj/pkg/m.pyc" "proj"
                               ["*.pyc"] = true) by (vm_compute; reflexivity).
  split; [exact Hincl | split; [exact Hone |]].
  exact (proj2 (should_ignore_any_pattern Glob.fnmatch Reference.cwd
                  "proj/pkg/m.pyc" "proj" ["*.pyc"]) _ Hincl Hone).
Defined.

(** ** Strings and paths *)

Lemma split_nonempty (sep : ascii) (s : string) : Py.split sep s <> [].
Proof.
  destruct s as [| c s]; simpl; [discriminate |].
  destruct (Ascii.eqb c sep); [discriminate |].
  destruct (Py.split sep s); discriminate.
Qed.

Lemma split_app_sep (sep : ascii) (a b : string) :
  Py.split sep (a ++ String sep b) = Py.split sep a ++ Py.split sep b.
Proof.
  induction a as [| c a IH]; simpl.
  - rewrite Ascii.eqb_refl. reflexivity.
  - destruct (Ascii.eqb c sep); [rewrite IH; reflexivity |].
    rewrite IH. destruct (Py.split sep a) as [| w ws] eqn:E.
    + exfalso. exact (split_nonempty sep a E).
    + reflexivity.
Qed.

Lemma split_no_sep (s : string) :
  has_sep s = false -> Py.split posixpath.sep s = [s].
Proof.
  induction s as [| c s IH]; simpl; [reflexivity |].
  intro H. apply orb_false_iff in H. destruct H as [Hc Hs].
  rewrite Hc, (IH Hs). reflexivity.
Qed.

Lemma ends_with_sep_app (a : string) :
  Py.ends_with_sep a = true -> exists a0, a = (a0 ++ "/")%string.
Proof.
  induction a as [| c a IH]; simpl; [discriminate |].
  destruct a as [| c' a'].
  - intro H. apply Ascii.eqb_eq in H. subst c. exists EmptyString. reflexivity.
  - intro H. destruct (IH H) as [a0 Ha0]. exists (String c a0). simpl. rewrite <- Ha0.
    reflexivity.
Qed.

Lemma prefix_slash_has_sep (item : string) :
  Py.startswith item "/" = true -> has_sep item = true.
Proof.
  unfold Py.startswith. destruct item as [| c item]; [discriminate |].
  cbn [String.prefix has_sep].
  destruct (ascii_dec "/" c) as [E | E].
  - subst c. reflexivity.
  - discriminate.
Qed.

Lemma string_app_assoc (a b c : string) :
  ((a ++ b) ++ c)%string = (a ++ (b ++ c))%string.
Proof. induction a as [| x a IH]; simpl; [reflexivity | rewrite IH; reflexivity]. Qed.

Lemma basename_join (path item : string) :
  valid_name item = true -> posixpath.basename (posixpath.join path item) = item.
Proof.
  unfold valid_name. intro H. apply andb_true_iff in H. destruct H as [_ Hsep].
  apply negb_true_iff in Hsep.
  unfold posixpath.join, posixpath.basename.
  destruct (Py.startswith item "/") eqn:Hp.
  { apply prefix_slash_has_sep in Hp. congruence. }
  destruct (String.eqb path "") eqn:He; simpl.
  - apply String.eqb_eq in He. subst path. simpl. rewrite (split_no_sep _ Hsep). reflexivity.
  - destruct (Py.ends_with_sep path) eqn:Hend.
    + destruct (ends_with_sep_app _ Hend) as [a0 Ha0]. subst path.
      rewrite string_app_assoc. simpl.
      change (String "/" item) with (String posixpath.sep item).
      rewrite split_app_sep, (split_no_sep _ Hsep). apply last_last.
    + simpl. change (String "/" item) with (String posixpath.sep item).
      rewrite split_app_sep, (split_no_sep _ Hsep). apply last_last.
Qed.

Lemma prefix_app (p s : string) :
  String.prefix p s = true <-> exists b, s = (p ++ b)%string.
Proof.
  revert s. induction p as [| c p IH]; intro s.
  - split; [intros _; exists s; reflexivity | destruct s; reflexivity].
  - destruct s as [| c' s]; cbn [String.prefix].
    + split; [discriminate | intros [b Hb]; discriminate].
    + destruct (ascii_dec c c') as [-> | Hne].
      * rewrite IH. split; intros [b Hb]; exists b; simpl in *; congruence.
      * split; [discriminate | intros [b Hb]; simpl in Hb; congruence].
Qed.

(** [Py.str_in] is substring containment. *)
Lemma str_in_spec (p s : string) :
  Py.str_in p s = true <-> exists a b, s = (a ++ p ++ b)%string.
Proof.
  induction s as [| c s IH]; cbn [Py.str_in].
  - rewrite orb_false_r, prefix_app. split.
    + intros [b Hb]. exists EmptyString, b. exact Hb.
    + intros [a [b Hab]]. destruct a; [exists b; exact Hab | discriminate].
  - rewrite orb_true_iff, prefix_app, IH. split.
    + intros [[b Hb] | [a [b Hab]]].
      * exists EmptyString, b. exact Hb.
      * exists (String c a), b. simpl. rewrite Hab. reflexivity.
    + intros [a [b Hab]]. destruct a as [| c' a].
      * left. exists b. exact Hab.
      * right. simpl in Hab. injection Hab as _ Hs. exists a, b. exact Hs.
Qed.

(** ** Tree builder *)

Section BuilderProperties.

Variable fnmatch : string -> string -> bool.
Variable cwd : string.
Variable count_tokens : string -> nat.
Variable decode : list byte -> string.
Variable strerror : string.
Variable finditer : string -> string -> list string.
Variable ignore_patterns : list string.
Variable base_path : string.
Variable include_git : bool.
Variable max_depth : option Z.
Variable filter_patterns : option (list string).
Variable extract_definitions : bool.

Local Abbreviation analyze :=
  (analyze_directory fnmatch cwd count_tokens decode strerror finditer ignore_patterns
                     base_path include_git max_depth filter_patterns extract_definitions).
Local Abbreviation scan_items :=
  (scan fnmatch cwd count_tokens decode strerror finditer ignore_patterns
        base_path include_git max_depth filter_patterns extract_definitions).
Local Abbreviation visit_item :=
  (visit fnmatch cwd count_tokens decode strerror finditer ignore_patterns
         base_path include_git filter_patterns extract_definitions).
Local Abbreviation subcall :=
  (recursive_call fnmatch cwd count_tokens decode strerror finditer ignore_patterns
                  base_path include_git max_depth filter_patterns extract_definitions).
Local Abbreviation outcome :=
  (visit_outcome count_tokens decode strerror finditer filter_patterns extract_definitions).
Local Abbreviation ignored :=
  (should_ignore fnmatch cwd).

Lemma scan_cons path depth item n rest r cs has :
  scan_items path depth (ECons item n rest) r cs has =
  let '(r', cs', has') :=
    visit_item (posixpath.join path item) item n (subcall path depth item n) (r, cs, has) in
  scan_items path depth rest r' cs' has'.
Proof.
  cbn [scan]. unfold visit, recursive_call.
  destruct (String.eqb item ".git" && negb include_git)%bool; [reflexivity |].
  destruct (should_ignore fnmatch cwd (posixpath.join path item) base_path ignore_patterns)
           eqn:Hig; [reflexivity |].
  destruct n as [d | l' |]; [| | reflexivity].
  - destruct (is_text_file d) eqn:Htext.
    + destruct (filtered_content finditer filter_patterns extract_definitions
                                 (read_file_content decode strerror d)); reflexivity.
    + reflexivity.
  - fold analyze.
    destruct (analyze (posixpath.join path item) (depth + 1) l') as [[| name agg [| c sub] ig] |];
      reflexivity.
Qed.

Lemma analyze_unfold path depth l :
  analyze path depth l =
  if too_deep max_depth depth then None
  else
    let '(result, children, has_matching_files) :=
      match l with
      | PermissionDenied => (zero_totals, [], false)
      | Entries es => scan_items path depth es zero_totals [] false
      end in
    if negb has_matching_files then None
    else Some (DirNode (posixpath.basename path) result children None).
Proof. destruct l; reflexivity. Qed.

(** What [analyze_directory] returns, when it returns a node. *)
Lemma analyze_some path depth l nd :
  analyze path depth l = Some nd ->
  exists es r cs,
    l = Entries es /\ too_deep max_depth depth = false /\
    scan_items path depth es zero_totals [] false = (r, cs, true) /\
    nd = DirNode (posixpath.basename path) r cs None.
Proof.
  rewrite analyze_unfold.
  destruct (too_deep max_depth depth); [discriminate |].
  destruct l as [| es]; [simpl; discriminate |].
  destruct (scan_items path depth es zero_totals [] false) as [[r cs] has] eqn:Hscan.
  destruct has; simpl; [| discriminate].
  intro H. injection H as <-. exists es, r, cs. repeat split; auto.
Qed.

Lemma same_aggregates_refl r : same_aggregates r r.
Proof. unfold same_aggregates. auto. Qed.

Lemma same_aggregates_text r x : same_aggregates r (add_total_text_size r x).
Proof. unfold same_aggregates. simpl. auto. Qed.

Local Hint Resolve same_aggregates_refl same_aggregates_text : core.

(** Every iteration is one of the four outcomes. *)
Lemma visit_outcomes item_path item n subdir r cs has :
  outcome item n subdir r cs has (visit_item item_path item n subdir (r, cs, has)).
Proof.
  unfold visit.
  destruct (String.eqb item ".git" && negb include_git)%bool; [constructor; auto |].
  destruct (should_ignore fnmatch cwd item_path base_path ignore_patterns).
  { constructor. destruct n as [d | |]; auto. destruct (is_text_file d); auto. }
  destruct n as [d | l' |].
  - destruct (is_text_file d) eqn:Htext.
    + destruct (filtered_content finditer filter_patterns extract_definitions
                                 (read_file_content decode strerror d)) eqn:Hf.
      * eapply TextFile; eauto.
      * constructor; auto.
    + eapply BinaryFile; eauto.
  - destruct subdir as [[| name agg [| c sub] ig] |]; try (constructor; auto).
    eapply SubDirectory; eauto.
  - constructor; auto.
Qed.

(** *** Pruning *)

Lemma no_empty_dir_unfold name agg cs ig :
  no_empty_dir (DirNode name agg cs ig) <-> cs <> [] /\ Forall no_empty_dir cs.
Proof.
  simpl. apply and_iff_compat_l.
  induction cs as [| c cs IH].
  - split; [constructor | trivial].
  - rewrite IH. split.
    + intros [Hc Hcs]. constructor; assumption.
    + intro H. inversion H. auto.
Qed.

Lemma app_one_not_nil {A} (l : list A) (x : A) : l ++ [x] <> [].
Proof. destruct l; discriminate. Qed.

Lemma Forall_app_one {A} (P : A -> Prop) (l : list A) (x : A) :
  Forall P l -> P x -> Forall P (l ++ [x]).
Proof. intros Hl Hx. apply Forall_app. split; [exact Hl | constructor; [exact Hx | constructor]]. Qed.

Lemma scan_pruned :
  forall es path depth r cs has r' cs' has',
    scan_items path depth es r cs has = (r', cs', has') ->
    pruned_state cs has -> pruned_state cs' has'.
Proof.
  apply (entries_mut
           (fun n => match n with
                     | Directory l =>
                         forall path depth nd, analyze path depth l = Some nd -> no_empty_dir nd
                     | _ => True
                     end)
           (fun l => forall path depth nd, analyze path depth l = Some nd -> no_empty_dir nd)
           (fun es => forall path depth r cs has r' cs' has',
                scan_items path depth es r cs has = (r', cs', has') ->
                pruned_state cs has -> pruned_state cs' has')).
  - trivial.
  - intros l IH. exact IH.
  - trivial.
  - intros path depth nd H. apply analyze_some in H.
    destruct H as [es [r [cs [Hl _]]]]. discriminate.
  - intros es IH path depth nd H. apply analyze_some in H.
    destruct H as [es' [r [cs [Hl [_ [Hscan Hnd]]]]]]. injection Hl as <-.
    assert (Hp : pruned_state cs true).
    { eapply IH; [exact Hscan |]. split; [discriminate | constructor]. }
    subst nd. apply no_empty_dir_unfold. destruct Hp as [Hne Hall]. auto.
  - intros path depth r cs has r' cs' has' H Hp. simpl in H. injection H as <- <- <-. exact Hp.
  - intros item n IHn rest IHrest path depth r cs has r' cs' has' H Hp.
    rewrite scan_cons in H.
    pose proof (visit_outcomes (posixpath.join path item) item n
                               (subcall path depth item n) r cs has) as Hout.
    destruct (visit_item (posixpath.join path item) item n (subcall path depth item n)
                         (r, cs, has)) as [[r1 cs1] has1].
    apply (IHrest _ _ _ _ _ _ _ _ H). clear H.
    destruct Hp as [Hne Hall].
    inversion Hout; subst; clear Hout;
      (split;
       [ intros; try apply app_one_not_nil; auto
       | try (apply Forall_app_one; [assumption |]); try assumption; try exact I ]).
    match goal with
    | Hsub : subcall _ _ _ (Directory _) = Some _ |- _ =>
        simpl in Hsub; apply IHn in Hsub;
        apply no_empty_dir_unfold in Hsub; apply no_empty_dir_unfold; exact Hsub
    end.
Qed.

Lemma scan_all_ignored path depth es :
  (forall item, In item (names es) ->
                ignored (posixpath.join path item) base_path ignore_patterns = true) ->
  forall r cs has, exists r', scan_items path depth es r cs has = (r', cs, has).
Proof.
  induction es as [| item n rest IH]; intros Hall r cs has.
  - exists r. reflexivity.
  - rewrite scan_cons. unfold visit.
    rewrite (Hall item (or_introl eq_refl)).
    destruct (String.eqb item ".git" && negb include_git)%bool;
      apply IH; intros i Hi; apply Hall; right; exact Hi.
Qed.

(** C2.  No directory node of a tree [analyze_directory] returns has an empty
    [children] list, and a directory all of whose entries the ignore patterns
    match yields the absent result. *)
Theorem pruning_invariant (path : string) (current_depth : Z) (l : listing) :
  (forall nd, analyze path current_depth l = Some nd -> no_empty_dir nd) /\
  (forall es,
      l = Entries es ->
      (forall item, In item (names es) ->
                    ignored (posixpath.join path item) base_path ignore_patterns = true) ->
      analyze path current_depth l = None).
Proof.
  split.
  - intros nd H. apply analyze_some in H.
    destruct H as [es [r [cs [Hl [_ [Hscan Hnd]]]]]].
    assert (Hp : pruned_state cs true).
    { eapply scan_pruned; [exact Hscan |]. split; [discriminate | constructor]. }
    subst nd. apply no_empty_dir_unfold. destruct Hp as [Hne Hall]. auto.
  - intros es Hl Hall. subst l. rewrite analyze_unfold.
    destruct (too_deep max_depth current_depth); [reflexivity |].
    destruct (scan_all_ignored path current_depth es Hall zero_totals [] false) as [r' Hr'].
    rewrite Hr'. reflexivity.
Qed.

(** *** Aggregation *)

Lemma aggregated_unfold l name agg cs ig :
  aggregated l (DirNode name agg cs ig) <-> aggregated_state (entries_of l) agg cs.
Proof.
  unfold aggregated_state. simpl.
  repeat apply and_iff_compat_l.
  induction cs as [| c cs IH].
  - split; [constructor | trivial].
  - rewrite IH. split.
    + intros [Hc Hcs]. constructor; [destruct c; exact Hc | exact Hcs].
    + intro H. inversion H as [| ? ? Hc Hcs]. split; [destruct c; exact Hc | exact Hcs].
Qed.

Lemma sum_included_app_one (f : node -> nat) (cs : list node) (c : node) :
  included c = true -> sum_included f (cs ++ [c]) = sum_included f cs + f c.
Proof.
  intro Hc. unfold sum_included. rewrite filter_app, map_app, list_sum_app.
  simpl. rewrite Hc. simpl. lia.
Qed.

Lemma entry_of_names item n es : entry_of item n es -> In item (names es).
Proof.
  induction es as [| item' n' rest IH]; simpl; [tauto |].
  intros [[H _] | H]; [left; exact H | right; apply IH, H].
Qed.

Lemma existsb_eqb_false item l :
  existsb (String.eqb item) l = false -> ~ In item l.
Proof.
  intros H Hin.
  assert (existsb (String.eqb item) l = true)
    by (apply existsb_exists; exists item; split; [exact Hin | apply String.eqb_refl]).
  congruence.
Qed.

(** In a well-formed listing, [lookup] finds each entry under its name. *)
Lemma lookup_entry es item n :
  wf_entries es = true -> entry_of item n es -> lookup item es = Some n.
Proof.
  induction es as [| item' n' rest IH]; simpl; [tauto |].
  intros Hwf Hin.
  apply andb_true_iff in Hwf. destruct Hwf as [Hwf Hrest].
  apply andb_true_iff in Hwf. destruct Hwf as [Hwf _].
  apply andb_true_iff in Hwf. destruct Hwf as [_ Hfresh].
  apply negb_true_iff in Hfresh. apply existsb_eqb_false in Hfresh.
  destruct Hin as [[-> ->] | Hin].
  - rewrite String.eqb_refl. reflexivity.
  - destruct (String.eqb item item') eqn:E.
    + apply String.eqb_eq in E. subst item'. apply entry_of_names in Hin. contradiction.
    + apply IH; assumption.
Qed.

Lemma scan_aggregated :
  forall es,
    wf_entries es = true ->
    forall all path depth r cs has r' cs' has',
      (forall item n, entry_of item n es -> lookup item all = Some n) ->
      scan_items path depth es r cs has = (r', cs', has') ->
      aggregated_state all r cs -> aggregated_state all r' cs'.
Proof.
  apply (entries_mut
           (fun n => match n with
                     | Directory l =>
                         wf_listing l = true ->
                         forall path depth nd, analyze path depth l = Some nd -> aggregated l nd
                     | _ => True
                     end)
           (fun l => wf_listing l = true ->
                     forall path depth nd, analyze path depth l = Some nd -> aggregated l nd)
           (fun es => wf_entries es = true ->
                forall all path depth r cs has r' cs' has',
                  (forall item n, entry_of item n es -> lookup item all = Some n) ->
                  scan_items path depth es r cs has = (r', cs', has') ->
                  aggregated_state all r cs -> aggregated_state all r' cs')).
  - trivial.
  - intros l IH. exact IH.
  - trivial.
  - intros _ path depth nd H. apply analyze_some in H.
    destruct H as [es [r [cs [Hl _]]]]. discriminate.
  - intros es IH Hwf path depth nd H. apply analyze_some in H.
    destruct H as [es' [r [cs [Hl [_ [Hscan Hnd]]]]]]. injection Hl as <-.
    subst nd. apply aggregated_unfold. simpl.
    eapply (IH Hwf es); [| exact Hscan |].
    + intros item n Hin. apply lookup_entry; assumption.
    + unfold aggregated_state, sum_included. simpl. repeat split; constructor.
  - intros _ all path depth r cs has r' cs' has' _ H Hst.
    simpl in H. injection H as <- <- <-. exact Hst.
  - intros item n IHn rest IHrest Hwf all path depth r cs has r' cs' has' Hall H Hst.
    simpl in Hwf.
    apply andb_true_iff in Hwf. destruct Hwf as [Hwf Hwfrest].
    apply andb_true_iff in Hwf. destruct Hwf as [Hwf Hwfn].
    apply andb_true_iff in Hwf. destruct Hwf as [Hvalid _].
    assert (Hitem : lookup item all = Some n) by (apply Hall; simpl; auto).
    rewrite scan_cons in H.
    pose proof (visit_outcomes (posixpath.join path item) item n
                               (subcall path depth item n) r cs has) as Hout.
    destruct (visit_item (posixpath.join path item) item n (subcall path depth item n)
                         (r, cs, has)) as [[r1 cs1] has1].
    apply (IHrest Hwfrest all _ _ _ _ _ _ _ _ (fun i m Hi => Hall i m (or_intror Hi)) H).
    clear H IHrest.
    destruct Hst as [Hs [Ht [Hf [Hd [Hx Hsub]]]]].
    unfold aggregated_state.
    inversion Hout as [r0 Hsame | d content r0 Hn Htext Hfc Hsame
                       | d r0 Hn Htext Hsame
                       | l' name agg c sub ig r0 Hn Hcall Hsame]; subst; clear Hout;
      destruct Hsame as [Es [Et [Ef [Ed Ex]]]].
    + repeat split; congruence.
    + rewrite !sum_included_app_one by reflexivity. simpl.
      rewrite Hitem, Htext.
      repeat split; try lia. apply Forall_app_one; [exact Hsub | exact I].
    + rewrite !sum_included_app_one by reflexivity. simpl.
      rewrite Hitem, Htext.
      repeat split; try lia. apply Forall_app_one; [exact Hsub | exact I].
    + rewrite !sum_included_app_one by reflexivity. simpl.
      simpl in Hcall.
      pose proof (IHn Hwfn _ _ _ Hcall) as Hagg.
      apply analyze_some in Hcall.
      destruct Hcall as [es' [r2 [cs2 [_ [_ [_ Hnd]]]]]].
      injection Hnd as Hname _ _ _.
      rewrite (basename_join _ _ Hvalid) in Hname. subst name.
      repeat split; try lia. apply Forall_app_one; [exact Hsub |].
      unfold child_aggregated. rewrite Hitem.
      apply aggregated_unfold in Hagg.
      exact (proj2 (aggregated_unfold l' item agg (c :: sub) (Some false)) Hagg).
Qed.

(** C1.  In every tree [analyze_directory] returns, each directory node's
    [size], [total_tokens], [file_count], [dir_count] and
    [text_content_size] are the sums of the corresponding values over its
    non-ignored children (a file counting 1 toward [file_count], a directory
    1 plus its own [dir_count] toward [dir_count]), at every level.  The
    scanned tree is a file system's: names are valid and unique within a
    directory. *)
Theorem aggregation_invariant (path : string) (current_depth : Z) (l : listing) (nd : node) :
  wf_listing l = true ->
  analyze path current_depth l = Some nd ->
  aggregated l nd.
Proof.
  intros Hwf H. apply analyze_some in H.
  destruct H as [es [r [cs [Hl [_ [Hscan Hnd]]]]]]. subst l nd.
  apply aggregated_unfold. simpl. simpl in Hwf.
  eapply (scan_aggregated es Hwf es); [| exact Hscan |].
  - intros item n Hin. apply lookup_entry; assumption.
  - unfold aggregated_state, sum_included. simpl. repeat split; constructor.
Qed.

(** *** Content filter *)

Lemma unique_lookup_entry es item n :
  unique_names es = true -> entry_of item n es -> lookup item es = Some n.
Proof.
  induction es as [| item' n' rest IH]; simpl; [tauto |].
  intros Hu Hin.
  apply andb_true_iff in Hu. destruct Hu as [Hfresh Hrest].
  apply negb_true_iff in Hfresh. apply existsb_eqb_false in Hfresh.
  destruct Hin as [[-> ->] | Hin].
  - rewrite String.eqb_refl. reflexivity.
  - destruct (String.eqb item item') eqn:E.
    + apply String.eqb_eq in E. subst item'. apply entry_of_names in Hin. contradiction.
    + apply IH; assumption.
Qed.

(** A file node in the children comes from a regular-file entry of its name
    which, when it is text, got through the [if filter_patterns:] block. *)
Lemma scan_file_child item fsize tokens content ig :
  forall es path depth r cs has r' cs' has',
    scan_items path depth es r cs has = (r', cs', has') ->
    In (FileNode item fsize tokens content ig) cs' ->
    In (FileNode item fsize tokens content ig) cs \/
    exists d,
      entry_of item (RegularFile d) es /\
      (is_text_file d = true ->
       filtered_content finditer filter_patterns extract_definitions
                        (read_file_content decode strerror d) <> None).
Proof.
  induction es as [| item0 n rest IH]; intros path depth r cs has r' cs' has' H Hin.
  - simpl in H. injection H as <- <- <-. left. exact Hin.
  - rewrite scan_cons in H.
    pose proof (visit_outcomes (posixpath.join path item0) item0 n
                               (subcall path depth item0 n) r cs has) as Hout.
    destruct (visit_item (posixpath.join path item0) item0 n (subcall path depth item0 n)
                         (r, cs, has)) as [[r1 cs1] has1].
    destruct (IH _ _ _ _ _ _ _ _ H Hin) as [Hcs1 | [d [Hd Hpass]]].
    2: { right. exists d. split; [right; exact Hd | exact Hpass]. }
    inversion Hout; subst; clear Hout.
    + left. exact Hcs1.
    + apply in_app_or in Hcs1. destruct Hcs1 as [Hcs | [Heq | []]]; [left; exact Hcs |].
      injection Heq as -> _ _ _. right. eexists. split; [left; split; reflexivity |].
      intros _. congruence.
    + apply in_app_or in Hcs1. destruct Hcs1 as [Hcs | [Heq | []]]; [left; exact Hcs |].
      injection Heq as -> _ _ _. right. eexists. split; [left; split; reflexivity |].
      intro Ht. congruence.
    + apply in_app_or in Hcs1. destruct Hcs1 as [Hcs | [Heq | []]]; [left; exact Hcs |].
      discriminate.
Qed.

(** The loop only ever appends children and raises the flag. *)
Lemma scan_keeps :
  forall es path depth r cs has r' cs' has',
    scan_items path depth es r cs has = (r', cs', has') ->
    (forall c, In c cs -> In c cs') /\ (has = true -> has' = true).
Proof.
  induction es as [| item0 n rest IH]; intros path depth r cs has r' cs' has' H.
  - simpl in H. injection H as <- <- <-. auto.
  - rewrite scan_cons in H.
    pose proof (visit_outcomes (posixpath.join path item0) item0 n
                               (subcall path depth item0 n) r cs has) as Hout.
    destruct (visit_item (posixpath.join path item0) item0 n (subcall path depth item0 n)
                         (r, cs, has)) as [[r1 cs1] has1].
    destruct (IH _ _ _ _ _ _ _ _ H) as [Hin Hhas].
    inversion Hout; subst; clear Hout;
      (split; [intros x Hx; apply Hin; try (apply in_or_app; left); exact Hx | auto]).
Qed.

Lemma filtered_content_all content content' patterns :
  filter_patterns = Some patterns -> patterns <> [] ->
  filtered_content finditer filter_patterns extract_definitions content = Some content' ->
  forall pattern, In pattern patterns -> Py.str_in pattern content = true.
Proof.
  intros Hf Hne H. unfold filtered_content in H. rewrite Hf in H.
  destruct patterns as [| p ps]; [contradiction |].
  destruct (Py.all (fun pattern => Py.str_in pattern content) (p :: ps)) eqn:Hall;
    [| discriminate].
  unfold Py.all in Hall. rewrite forallb_forall in Hall. exact Hall.
Qed.

Lemma filtered_content_unfiltered content :
  Py.truthy filter_patterns = false ->
  filtered_content finditer filter_patterns extract_definitions content = Some content.
Proof.
  unfold filtered_content, Py.truthy.
  destruct filter_patterns as [[| p ps] |]; [reflexivity | discriminate | reflexivity].
Qed.

(** With no filter configured, a visible text file is listed with its full
    content and marks its directory as matching. *)
Lemma scan_unfiltered_file item d :
  is_text_file d = true ->
  Py.truthy filter_patterns = false ->
  (String.eqb item ".git" && negb include_git)%bool = false ->
  forall es path depth r cs has r' cs' has',
    ignored (posixpath.join path item) base_path ignore_patterns = false ->
    entry_of item (RegularFile d) es ->
    scan_items path depth es r cs has = (r', cs', has') ->
    has' = true /\
    In (FileNode item (getsize d) (count_tokens (read_file_content decode strerror d))
                 (read_file_content decode strerror d) false) cs'.
Proof.
  intros Htext Hnof Hgit.
  induction es as [| item0 n rest IH]; intros path depth r cs has r' cs' has' Hig Hin H.
  - destruct Hin.
  - rewrite scan_cons in H. destruct Hin as [[-> ->] | Hin].
    + unfold visit in H. rewrite Hgit, Hig, Htext in H.
      rewrite (filtered_content_unfiltered _ Hnof) in H.
      apply scan_keeps in H. destruct H as [Hc Hh].
      split; [apply Hh; reflexivity | apply Hc, in_or_app; right; left; reflexivity].
    + destruct (visit_item (posixpath.join path item0) item0 n (subcall path depth item0 n)
                           (r, cs, has)) as [[r1 cs1] has1].
      eapply IH; eassumption.
Qed.

(** C5.  With filter patterns configured, a non-ignored text file is listed
    only if every required substring occurs in its raw content; with the
    patterns empty or not configured, every non-ignored text file is
    listed. *)
Theorem content_filter_and_gate (path : string) (current_depth : Z) (es : entries)
        (item : string) (d : fdata) :
  unique_names es = true ->
  entry_of item (RegularFile d) es ->
  is_text_file d = true ->
  ignored (posixpath.join path item) base_path ignore_patterns = false ->
  (forall patterns nd fsize tokens content ig,
      filter_patterns = Some patterns -> patterns <> [] ->
      analyze path current_depth (Entries es) = Some nd ->
      In (FileNode item fsize tokens content ig) (node_children nd) ->
      forall pattern, In pattern patterns ->
                      Py.str_in pattern (read_file_content decode strerror d) = true)
  /\
  (Py.truthy filter_patterns = false ->
   (String.eqb item ".git" && negb include_git)%bool = false ->
   too_deep max_depth current_depth = false ->
   exists nd,
     analyze path current_depth (Entries es) = Some nd /\
     In (FileNode item (getsize d) (count_tokens (read_file_content decode strerror d))
                  (read_file_content decode strerror d) false) (node_children nd)).
Proof.
  intros Huniq Hentry Htext Hig. split.
  - intros patterns nd fsize tokens content ig Hf Hne H Hin pattern Hp.
    apply analyze_some in H. destruct H as [es' [r [cs [Hl [_ [Hscan Hnd]]]]]].
    injection Hl as <-. subst nd. simpl in Hin.
    destruct (scan_file_child _ _ _ _ _ _ _ _ _ _ _ _ _ _ Hscan Hin) as [[] | [d' [Hd' Hpass]]].
    assert (Hsame : Some (RegularFile d') = Some (RegularFile d)).
    { rewrite <- (unique_lookup_entry es item _ Huniq Hd').
      apply unique_lookup_entry; assumption. }
    injection Hsame as ->. specialize (Hpass Htext).
    destruct (filtered_content finditer filter_patterns extract_definitions
                               (read_file_content decode strerror d)) as [c' |] eqn:Hfc;
      [| contradiction].
    eapply filtered_content_all; eassumption.
  - intros Hnof Hgit Hdepth. rewrite analyze_unfold, Hdepth.
    destruct (scan_items path current_depth es zero_totals [] false) as [[r cs] has] eqn:Hscan.
    destruct (scan_unfiltered_file item d Htext Hnof Hgit _ _ _ _ _ _ _ _ _ Hig Hentry Hscan)
      as [-> Hin].
    simpl. eexists. split; [reflexivity | exact Hin].
Qed.

(** *** Definition extraction *)

Lemma keep_definition_fold (patterns : list string) (blocks : list string) (acc : string) :
  fold_left (keep_definition patterns) blocks acc =
  (acc ++ cat (map with_blank_line (filter (mentions_any patterns) blocks)))%string.
Proof.
  revert acc. induction blocks as [| b blocks IH]; intro acc; simpl.
  - clear. induction acc as [| c acc IH]; simpl; [reflexivity | rewrite <- IH; reflexivity].
  - rewrite IH. unfold keep_definition, mentions_any, Py.any.
    destruct (existsb (fun pattern => Py.str_in pattern b) patterns); [| reflexivity].
    simpl. unfold with_blank_line. rewrite !string_app_assoc. reflexivity.
Qed.

Lemma filtered_content_empty_extract content patterns :
  extract_definitions = true ->
  filter_patterns = Some patterns -> patterns <> [] ->
  extract_classes_and_functions finditer content patterns = "" ->
  filtered_content finditer filter_patterns extract_definitions content = None.
Proof.
  intros He Hf Hne Hx. unfold filtered_content. rewrite Hf, He.
  destruct patterns as [| p ps]; [contradiction |].
  destruct (negb (Py.all (fun pattern => Py.str_in pattern content) (p :: ps)));
    [reflexivity |].
  rewrite Hx. reflexivity.
Qed.

(** C6.  [extract_classes_and_functions] returns the class-like blocks, in
    order of occurrence, and then the function-like blocks, in order of
    occurrence, that contain at least one of the required substrings, each
    followed by the blank-line separator.  When [analyze_directory] runs the
    extraction (extraction enabled, filter patterns configured), a text file
    whose extract is empty is left out of the tree. *)
Theorem extraction_or_gate :
  (forall content patterns,
      extract_classes_and_functions finditer content patterns =
      (cat (map with_blank_line
                (filter (mentions_any patterns) (finditer class_pattern content)))
       ++ cat (map with_blank_line
                   (filter (mentions_any patterns) (finditer function_pattern content))))%string)
  /\
  (forall path current_depth es item d patterns nd,
      extract_definitions = true ->
      filter_patterns = Some patterns -> patterns <> [] ->
      unique_names es = true ->
      entry_of item (RegularFile d) es ->
      is_text_file d = true ->
      extract_classes_and_functions finditer (read_file_content decode strerror d) patterns = "" ->
      analyze path current_depth (Entries es) = Some nd ->
      forall fsize tokens content ig,
        ~ In (FileNode item fsize tokens content ig) (node_children nd)).
Proof.
  split.
  - intros content patterns. unfold extract_classes_and_functions.
    rewrite !keep_definition_fold. reflexivity.
  - intros path depth es item d patterns nd He Hf Hne Huniq Hentry Htext Hx H
           fsize tokens content ig Hin.
    apply analyze_some in H. destruct H as [es' [r [cs [Hl [_ [Hscan Hnd]]]]]].
    injection Hl as <-. subst nd. simpl in Hin.
    destruct (scan_file_child _ _ _ _ _ _ _ _ _ _ _ _ _ _ Hscan Hin) as [[] | [d' [Hd' Hpass]]].
    assert (Hsame : Some (RegularFile d') = Some (RegularFile d)).
    { rewrite <- (unique_lookup_entry es item _ Huniq Hd').
      apply unique_lookup_entry; assumption. }
    injection Hsame as ->. apply (Hpass Htext).
    eapply filtered_content_empty_extract; eassumption.
Qed.

(** *** Directories without a matching text file *)

Local Abbreviation matching :=
  (matching_files fnmatch cwd decode strerror finditer ignore_patterns base_path
                  include_git max_depth filter_patterns extract_definitions).
Local Abbreviation matching_in :=
  (matching_files_in fnmatch cwd decode strerror finditer ignore_patterns base_path
                     include_git max_depth filter_patterns extract_definitions).



Lemma scan_no_matching :
  forall es path depth r cs has,
    matching_in path depth es = [] ->
    exists r' cs', scan_items path depth es r cs has = (r', cs', has).
Proof.
  apply (entries_mut
           (fun n => match n with
                     | Directory l =>
                         forall path depth, matching path depth l = [] ->
                                            analyze path depth l = None
                     | _ => True
                     end)
           (fun l => forall path depth, matching path depth l = [] ->
                                        analyze path depth l = None)
           (fun es => forall path depth r cs has,
                matching_in path depth es = [] ->
                exists r' cs', scan_items path depth es r cs has = (r', cs', has))).
  - trivial.
  - intros l IH. exact IH.
  - trivial.
  - intros path depth _. rewrite analyze_unfold.
    destruct (too_deep max_depth depth); reflexivity.
  - intros es IH path depth H. rewrite analyze_unfold.
    cbn [matching_files] in H.
    destruct (too_deep max_depth depth); [reflexivity |].
    destruct (IH path depth zero_totals [] false H) as [r' [cs' Hscan]].
    rewrite Hscan. reflexivity.
  - intros path depth r cs has _. exists r, cs. reflexivity.
  - intros item n IHn rest IHrest path depth r cs has H.
    rewrite scan_cons. cbn [matching_files_in] in H. unfold visit.
    destruct (String.eqb item ".git" && negb include_git)%bool; [apply IHrest, H |].
    destruct (should_ignore fnmatch cwd (posixpath.join path item) base_path ignore_patterns);
      [apply IHrest, H |].
    apply app_eq_nil in H. destruct H as [Hhead Hrest].
    destruct n as [d | l' |].
    + destruct (is_text_file d).
      * destruct (filtered_content finditer filter_patterns extract_definitions
                                   (read_file_content decode strerror d));
          [discriminate | apply IHrest, Hrest].
      * apply IHrest, Hrest.
    + simpl. fold matching in Hhead. rewrite (IHn _ _ Hhead). apply IHrest, Hrest.
    + apply IHrest, Hrest.
Qed.

Lemma only_binary_no_matching path depth es :
  only_binary_files es = true -> matching_in path depth es = [].
Proof.
  induction es as [| item n rest IH]; [reflexivity |].
  cbn [only_binary_files matching_files_in].
  destruct n as [d | l' |]; try discriminate.
  intro H. apply andb_true_iff in H. destruct H as [Hd Hrest].
  apply negb_true_iff in Hd. rewrite Hd, (IH Hrest).
  destruct (String.eqb item ".git" && negb include_git)%bool; [reflexivity |].
  destruct (should_ignore fnmatch cwd (posixpath.join path item) base_path ignore_patterns);
    reflexivity.
Qed.



(** C10.  [analyze_directory] returns the absent result for a directory whose
    subtree holds no non-ignored text file that passes the content filter;
    non-ignored binary files do not change that, so a directory that lists
    only binary files yields nothing. *)
Theorem binary_only_absence (path : string) (current_depth : Z) (l : listing) :
  (matching path current_depth l = [] -> analyze path current_depth l = None) /\
  (forall es, l = Entries es -> only_binary_files es = true ->
              analyze path current_depth l = None).
Proof.
  assert (Hmain : matching path current_depth l = [] -> analyze path current_depth l = None).
  { intro H. rewrite analyze_unfold. destruct l as [| es]; cbn [matching_files] in H.
    - destruct (too_deep max_depth current_depth); reflexivity.
    - destruct (too_deep max_depth current_depth); [reflexivity |].
      destruct (scan_no_matching es path current_depth zero_totals [] false H)
        as [r' [cs' Hscan]].
      rewrite Hscan. reflexivity. }
  split; [exact Hmain |].
  intros es -> Hbin. apply Hmain. cbn [matching_files].
  destruct (too_deep max_depth current_depth); [reflexivity |].
  apply only_binary_no_matching, Hbin.
Qed.

(** *** Ignored entries and the text-size counter *)

Lemma none_ignored_unfold name agg cs ig :
  none_ignored (DirNode name agg cs ig) =
  forallb (fun c => (included c && none_ignored c)%bool) cs.
Proof.
  simpl. induction cs as [| c cs IH]; [reflexivity |].
  simpl. rewrite IH. reflexivity.
Qed.

Lemma forallb_app_one {A} (f : A -> bool) (l : list A) (x : A) :
  forallb f l = true -> f x = true -> forallb f (l ++ [x]) = true.
Proof. intros Hl Hx. rewrite forallb_app, Hl. simpl. rewrite Hx. reflexivity. Qed.

(** An ignored entry is skipped before a node is built for it, so no node
    listed in any returned tree is flagged [is_ignored]. *)
Lemma children_never_ignored :
  forall l path depth nd, analyze path depth l = Some nd -> none_ignored nd = true.
Proof.
  apply (listing_mut
           (fun n => match n with
                     | Directory l =>
                         forall path depth nd,
                           analyze path depth l = Some nd -> none_ignored nd = true
                     | _ => True
                     end)
           (fun l => forall path depth nd,
                analyze path depth l = Some nd -> none_ignored nd = true)
           (fun es => forall path depth r cs has r' cs' has',
                scan_items path depth es r cs has = (r', cs', has') ->
                forallb (fun c => (included c && none_ignored c)%bool) cs = true ->
                forallb (fun c => (included c && none_ignored c)%bool) cs' = true)).
  - trivial.
  - intros l IH. exact IH.
  - trivial.
  - intros path depth nd H. apply analyze_some in H.
    destruct H as [es [r [cs [Hl _]]]]. discriminate.
  - intros es IH path depth nd H. apply analyze_some in H.
    destruct H as [es' [r [cs [Hl [_ [Hscan Hnd]]]]]]. injection Hl as <-. subst nd.
    rewrite none_ignored_unfold. eapply IH; [exact Hscan | reflexivity].
  - intros path depth r cs has r' cs' has' H Hcs. simpl in H. injection H as <- <- <-.
    exact Hcs.
  - intros item n IHn rest IHrest path depth r cs has r' cs' has' H Hcs.
    rewrite scan_cons in H.
    pose proof (visit_outcomes (posixpath.join path item) item n
                               (subcall path depth item n) r cs has) as Hout.
    destruct (visit_item (posixpath.join path item) item n (subcall path depth item n)
                         (r, cs, has)) as [[r1 cs1] has1].
    apply (IHrest _ _ _ _ _ _ _ _ H). clear H.
    inversion Hout; subst; clear Hout;
      try assumption; try (apply forallb_app_one; [assumption | reflexivity]).
    apply forallb_app_one; [assumption |].
    match goal with
    | Hsub : subcall _ _ _ (Directory _) = Some _ |- _ =>
        simpl in Hsub; apply IHn in Hsub;
        rewrite none_ignored_unfold in Hsub; rewrite none_ignored_unfold; exact Hsub
    end.
Qed.

(** [total_text_size] only ever receives the sizes of the text files the
    directory lists itself: nothing is carried up from a subdirectory. *)
Lemma scan_total_text_size :
  forall es path depth r cs has r' cs' has',
    scan_items path depth es r cs has = (r', cs', has') ->
    total_text_size r' = total_text_size r + direct_text_size include_git es.
Proof.
  induction es as [| item n rest IH]; intros path depth r cs has r' cs' has' H.
  - simpl in H. injection H as <- <- <-. simpl. lia.
  - rewrite scan_cons in H. cbn [direct_text_size]. unfold visit in H.
    destruct (String.eqb item ".git" && negb include_git)%bool.
    { apply IH in H. lia. }
    destruct (should_ignore fnmatch cwd (posixpath.join path item) base_path ignore_patterns).
    { destruct n as [d | l' |]; [destruct (is_text_file d) |..]; apply IH in H; simpl in *; lia. }
    destruct n as [d | l' |].
    + destruct (is_text_file d).
      * destruct (filtered_content finditer filter_patterns extract_definitions
                                   (read_file_content decode strerror d));
          apply IH in H; simpl in *; lia.
      * apply IH in H; simpl in *; lia.
    + destruct (subcall path depth item (Directory l')) as [[| name agg [| c sub] ig] |];
        apply IH in H; simpl in *; lia.
    + apply IH in H; simpl in *; lia.
Qed.

Lemma root_total_text_size path depth es name agg cs ig :
  analyze path depth (Entries es) = Some (DirNode name agg cs ig) ->
  total_text_size agg = direct_text_size include_git es.
Proof.
  intro H. apply analyze_some in H.
  destruct H as [es' [r [cs' [Hl [_ [Hscan Hnd]]]]]]. injection Hl as <-.
  injection Hnd as _ -> _ _. apply scan_total_text_size in Hscan. simpl in Hscan. exact Hscan.
Qed.

(** *** The aggregates as counts over the whole tree *)

Lemma file_nodes_unfold name agg cs ig :
  file_nodes (DirNode name agg cs ig) = flat_map file_nodes cs.
Proof.
  simpl. induction cs as [| c cs IH]; [reflexivity |].
  simpl. rewrite IH. reflexivity.
Qed.

Lemma dirs_below_unfold name agg cs ig :
  dirs_below (DirNode name agg cs ig) = list_sum (map dir_weight cs).
Proof.
  simpl. induction cs as [| c cs IH]; [reflexivity |].
  simpl. rewrite IH. destruct c; reflexivity.
Qed.

Lemma scan_counted :
  forall es path depth r cs has r' cs' has',
    scan_items path depth es r cs has = (r', cs', has') ->
    counted_state r cs -> counted_state r' cs'.
Proof.
  apply (entries_mut
           (fun n => match n with
                     | Directory l =>
                         forall path depth name agg cs ig,
                           analyze path depth l = Some (DirNode name agg cs ig) ->
                           counted_state agg cs
                     | _ => True
                     end)
           (fun l => forall path depth name agg cs ig,
                analyze path depth l = Some (DirNode name agg cs ig) ->
                counted_state agg cs)
           (fun es => forall path depth r cs has r' cs' has',
                scan_items path depth es r cs has = (r', cs', has') ->
                counted_state r cs -> counted_state r' cs')).
  - trivial.
  - intros l IH. exact IH.
  - trivial.
  - intros path depth name agg cs ig H. apply analyze_some in H.
    destruct H as [es [r [cs0 [Hl _]]]]. discriminate.
  - intros es IH path depth name agg cs ig H. apply analyze_some in H.
    destruct H as [es' [r [cs0 [Hl [_ [Hscan Hnd]]]]]]. injection Hl as <-.
    injection Hnd as _ -> ->.
    eapply IH; [exact Hscan |]. unfold counted_state. simpl. auto.
  - intros path depth r cs has r' cs' has' H Hst. simpl in H. injection H as <- <- <-.
    exact Hst.
  - intros item n IHn rest IHrest path depth r cs has r' cs' has' H Hst.
    rewrite scan_cons in H.
    pose proof (visit_outcomes (posixpath.join path item) item n
                               (subcall path depth item n) r cs has) as Hout.
    destruct (visit_item (posixpath.join path item) item n (subcall path depth item n)
                         (r, cs, has)) as [[r1 cs1] has1].
    apply (IHrest _ _ _ _ _ _ _ _ H). clear H IHrest.
    destruct Hst as [Hf [Hs [Ht Hd]]]. unfold counted_state.
    inversion Hout as [r0 Hsame | d content r0 Hn Htext Hfc Hsame
                       | d r0 Hn Htext Hsame
                       | l' name agg c sub ig r0 Hn Hcall Hsame]; subst; clear Hout;
      destruct Hsame as [Es [Et [Ef [Ed Ex]]]].
    + repeat split; congruence.
    + rewrite !flat_map_app, !map_app, !list_sum_app, !length_app. simpl.
      repeat split; lia.
    + rewrite !flat_map_app, !map_app, !list_sum_app, !length_app. simpl.
      repeat split; lia.
    + simpl in Hcall. apply IHn in Hcall. destruct Hcall as [Cf [Cs [Ct Cd]]].
      rewrite !flat_map_app, !map_app, !list_sum_app, !length_app.
      cbn [flat_map map list_sum List.length dir_weight].
      rewrite !file_nodes_unfold, !dirs_below_unfold, !app_nil_r.
      simpl in Cf, Cs, Ct, Cd |- *. repeat split; lia.
Qed.

(** X1.  The aggregates of a returned root are counts over the whole tree:
    [file_count] is the number of file nodes at any depth, [dir_count] the
    number of directory nodes below the root, [size] and [total_tokens] the
    sums of the file nodes' sizes and token counts. *)
Theorem root_totals_count_the_tree path depth l name agg cs ig :
  analyze path depth l = Some (DirNode name agg cs ig) ->
  let nd := DirNode name agg cs ig in
  file_count agg = List.length (file_nodes nd) /\
  dir_count agg = dirs_below nd /\
  size agg = list_sum (map child_size (file_nodes nd)) /\
  total_tokens agg = list_sum (map child_tokens (file_nodes nd)).
Proof.
  intros H nd. subst nd. rewrite file_nodes_unfold, dirs_below_unfold.
  apply analyze_some in H.
  destruct H as [es [r [cs0 [Hl [_ [Hscan Hnd]]]]]]. injection Hnd as _ -> ->.
  assert (Hst : counted_state r cs0).
  { eapply scan_counted; [exact Hscan |]. unfold counted_state. simpl. auto. }
  destruct Hst as [Hf [Hs [Ht Hd]]]. auto.
Qed.

(** *** Depth limit *)

Lemma height_unfold name agg cs ig :
  height (DirNode name agg cs ig) = 1 + fold_right (fun c m => Nat.max (height c) m) 0 cs.
Proof. reflexivity. Qed.

Lemma max_height_bound (cs : list node) (k : Z) :
  (0 <= k)%Z ->
  Forall (fun c => (Z.of_nat (height c) <= k)%Z) cs ->
  (Z.of_nat (fold_right (fun c m => Nat.max (height c) m) 0%nat cs) <= k)%Z.
Proof.
  intros Hk H. induction H as [| c cs Hc Hcs IH]; simpl; [lia |]. lia.
Qed.

Lemma too_deep_false m depth :
  max_depth = Some m -> too_deep max_depth depth = false -> (depth <= m)%Z.
Proof. intros -> H. unfold too_deep in H. apply Z.ltb_ge in H. exact H. Qed.

Lemma scan_height m :
  max_depth = Some m ->
  forall es path depth r cs has r' cs' has',
    (depth <= m)%Z ->
    scan_items path depth es r cs has = (r', cs', has') ->
    Forall (fun c => (Z.of_nat (height c) <= m - depth)%Z) cs ->
    Forall (fun c => (Z.of_nat (height c) <= m - depth)%Z) cs'.
Proof.
  intro Hm.
  apply (entries_mut
           (fun n => match n with
                     | Directory l =>
                         forall path depth nd,
                           analyze path depth l = Some nd ->
                           (Z.of_nat (height nd) <= m - depth + 1)%Z
                     | _ => True
                     end)
           (fun l => forall path depth nd,
                analyze path depth l = Some nd ->
                (Z.of_nat (height nd) <= m - depth + 1)%Z)
           (fun es => forall path depth r cs has r' cs' has',
                (depth <= m)%Z ->
                scan_items path depth es r cs has = (r', cs', has') ->
                Forall (fun c => (Z.of_nat (height c) <= m - depth)%Z) cs ->
                Forall (fun c => (Z.of_nat (height c) <= m - depth)%Z) cs')).
  - trivial.
  - intros l IH. exact IH.
  - trivial.
  - intros path depth nd H. apply analyze_some in H.
    destruct H as [es [r [cs0 [Hl _]]]]. discriminate.
  - intros es IH path depth nd H. apply analyze_some in H.
    destruct H as [es' [r [cs0 [Hl [Hdeep [Hscan Hnd]]]]]]. injection Hl as <-. subst nd.
    pose proof (too_deep_false m depth Hm Hdeep) as Hle.
    rewrite height_unfold.
    assert (Hall : Forall (fun c => (Z.of_nat (height c) <= m - depth)%Z) cs0)
      by (eapply IH; [exact Hle | exact Hscan | constructor]).
    pose proof (max_height_bound cs0 (m - depth) ltac:(lia) Hall). lia.
  - intros path depth r cs has r' cs' has' _ H Hst. simpl in H. injection H as <- <- <-.
    exact Hst.
  - intros item n IHn rest IHrest path depth r cs has r' cs' has' Hle H Hst.
    rewrite scan_cons in H.
    pose proof (visit_outcomes (posixpath.join path item) item n
                               (subcall path depth item n) r cs has) as Hout.
    destruct (visit_item (posixpath.join path item) item n (subcall path depth item n)
                         (r, cs, has)) as [[r1 cs1] has1].
    apply (IHrest _ _ _ _ _ _ _ _ Hle H). clear H IHrest.
    inversion Hout as [r0 Hsame | d content r0 Hn Htext Hfc Hsame
                       | d r0 Hn Htext Hsame
                       | l' name agg c sub ig r0 Hn Hcall Hsame]; subst; clear Hout.
    + exact Hst.
    + apply Forall_app_one; [exact Hst |]. simpl. lia.
    + apply Forall_app_one; [exact Hst |]. simpl. lia.
    + apply Forall_app_one; [exact Hst |].
      simpl in Hcall. apply IHn in Hcall.
      rewrite height_unfold in Hcall. rewrite height_unfold. lia.
Qed.

(** X2.  With [max_depth] set, a tree returned for a directory at depth
    [current_depth] has at most [max_depth - current_depth + 1] levels of
    directories: nothing deeper than [max_depth] is listed. *)
Theorem depth_limit_bounds_height m path current_depth l nd :
  max_depth = Some m ->
  analyze path current_depth l = Some nd ->
  (Z.of_nat (height nd) <= m - current_depth + 1)%Z.
Proof.
  intros Hm H. apply analyze_some in H.
  destruct H as [es [r [cs0 [Hl [Hdeep [Hscan Hnd]]]]]]. subst nd.
  pose proof (too_deep_false m current_depth Hm Hdeep) as Hle.
  rewrite height_unfold.
  assert (Hall : Forall (fun c => (Z.of_nat (height c) <= m - current_depth)%Z) cs0)
    by (eapply (scan_height m Hm); [exact Hle | exact Hscan | constructor]).
  pose proof (max_height_bound cs0 (m - current_depth) ltac:(lia) Hall). lia.
Qed.

(** *** What is listed, and in which order *)

Lemma subsequence_skip (l1 l2 : list string) (y : string) :
  subsequence l1 l2 -> subsequence l1 (y :: l2).
Proof. destruct l1 as [| x l1]; simpl; [trivial | intro H; right; exact H]. Qed.

Lemma git_skipped path depth item n rest r cs has :
  (String.eqb item ".git" && negb include_git)%bool = true ->
  scan_items path depth (ECons item n rest) r cs has = scan_items path depth rest r cs has.
Proof. intro H. rewrite scan_cons. unfold visit. rewrite H. reflexivity. Qed.

(** The name of a node built for the entry [item]. *)
Lemma outcome_child_name path depth item n r cs has r1 cs1 has1 :
  valid_name item = true ->
  outcome item n (subcall path depth item n) r cs has (r1, cs1, has1) ->
  cs1 = cs \/ exists c, cs1 = cs ++ [c] /\ node_name c = item.
Proof.
  intros Hvalid Hout.
  inversion Hout as [r0 Hsame | d content r0 Hn Htext Hfc Hsame
                     | d r0 Hn Htext Hsame
                     | l' name agg c sub ig r0 Hn Hcall Hsame]; subst; clear Hout.
  - left. reflexivity.
  - right. eexists. split; reflexivity.
  - right. eexists. split; reflexivity.
  - right. eexists. split; [reflexivity |]. simpl.
    simpl in Hcall. apply analyze_some in Hcall.
    destruct Hcall as [es' [r2 [cs2 [_ [_ [_ Hnd]]]]]].
    injection Hnd as -> _ _. apply basename_join, Hvalid.
Qed.

Lemma scan_in_listing_order :
  forall es path depth r cs has r' cs' has',
    wf_entries es = true ->
    scan_items path depth es r cs has = (r', cs', has') ->
    exists new, cs' = cs ++ new /\ subsequence (map node_name new) (names es).
Proof.
  induction es as [| item n rest IH]; intros path depth r cs has r' cs' has' Hwf H.
  - simpl in H. injection H as <- <- <-. exists []. rewrite app_nil_r. simpl. auto.
  - simpl in Hwf.
    apply andb_true_iff in Hwf. destruct Hwf as [Hwf Hwfrest].
    apply andb_true_iff in Hwf. destruct Hwf as [Hwf _].
    apply andb_true_iff in Hwf. destruct Hwf as [Hvalid _].
    rewrite scan_cons in H.
    pose proof (visit_outcomes (posixpath.join path item) item n
                               (subcall path depth item n) r cs has) as Hout.
    destruct (visit_item (posixpath.join path item) item n (subcall path depth item n)
                         (r, cs, has)) as [[r1 cs1] has1].
    destruct (IH _ _ _ _ _ _ _ _ Hwfrest H) as [new [Hcs Hsub]].
    destruct (outcome_child_name _ _ _ _ _ _ _ _ _ _ Hvalid Hout) as [-> | [c [-> Hname]]].
    + exists new. split; [exact Hcs |]. apply subsequence_skip, Hsub.
    + exists (c :: new). split; [rewrite Hcs, <- app_assoc; reflexivity |].
      simpl. left. split; [exact Hname | exact Hsub].
Qed.

(** X3.  The children of a returned directory node are listed in the order
    of the directory listing: their names are the listing's names with some
    left out. *)
Theorem children_follow_listing_order path depth es name agg cs ig :
  wf_entries es = true ->
  analyze path depth (Entries es) = Some (DirNode name agg cs ig) ->
  subsequence (map node_name cs) (names es).
Proof.
  intros Hwf H. apply analyze_some in H.
  destruct H as [es' [r [cs0 [Hl [_ [Hscan Hnd]]]]]]. injection Hl as <-.
  injection Hnd as _ _ ->.
  destruct (scan_in_listing_order _ _ _ _ _ _ _ _ _ Hwf Hscan) as [new [Hcs Hsub]].
  simpl in Hcs. subst cs0. exact Hsub.
Qed.

Lemma no_child_named_unfold banned name agg cs ig :
  no_child_named banned (DirNode name agg cs ig) =
  forallb (fun c => (negb (String.eqb (node_name c) banned)
                     && no_child_named banned c)%bool) cs.
Proof.
  simpl. induction cs as [| c cs IH]; [reflexivity |].
  simpl. rewrite IH. reflexivity.
Qed.

Lemma scan_without_git :
  include_git = false ->
  forall es path depth r cs has r' cs' has',
    wf_entries es = true ->
    scan_items path depth es r cs has = (r', cs', has') ->
    forallb (fun c => (negb (String.eqb (node_name c) ".git")
                       && no_child_named ".git" c)%bool) cs = true ->
    forallb (fun c => (negb (String.eqb (node_name c) ".git")
                       && no_child_named ".git" c)%bool) cs' = true.
Proof.
  intro Hgit.
  apply (entries_mut
           (fun n => match n with
                     | Directory l =>
                         wf_listing l = true ->
                         forall path depth nd,
                           analyze path depth l = Some nd -> no_child_named ".git" nd = true
                     | _ => True
                     end)
           (fun l => wf_listing l = true ->
                     forall path depth nd,
                       analyze path depth l = Some nd -> no_child_named ".git" nd = true)
           (fun es => forall path depth r cs has r' cs' has',
                wf_entries es = true ->
                scan_items path depth es r cs has = (r', cs', has') ->
                forallb (fun c => (negb (String.eqb (node_name c) ".git")
                                   && no_child_named ".git" c)%bool) cs = true ->
                forallb (fun c => (negb (String.eqb (node_name c) ".git")
                                   && no_child_named ".git" c)%bool) cs' = true)).
  - trivial.
  - intros l IH. exact IH.
  - trivial.
  - intros _ path depth nd H. apply analyze_some in H.
    destruct H as [es [r [cs0 [Hl _]]]]. discriminate.
  - intros es IH Hwf path depth nd H. apply analyze_some in H.
    destruct H as [es' [r [cs0 [Hl [_ [Hscan Hnd]]]]]]. injection Hl as <-. subst nd.
    rewrite no_child_named_unfold. eapply IH; [exact Hwf | exact Hscan | reflexivity].
  - intros path depth r cs has r' cs' has' _ H Hst. simpl in H. injection H as <- <- <-.
    exact Hst.
  - intros item n IHn rest IHrest path depth r cs has r' cs' has' Hwf H Hst.
    simpl in Hwf.
    apply andb_true_iff in Hwf. destruct Hwf as [Hwf Hwfrest].
    apply andb_true_iff in Hwf. destruct Hwf as [Hwf Hwfn].
    apply andb_true_iff in Hwf. destruct Hwf as [Hvalid _].
    destruct (String.eqb item ".git") eqn:Hitem.
    { rewrite git_skipped in H by (rewrite Hitem, Hgit; reflexivity).
      eapply IHrest; eassumption. }
    rewrite scan_cons in H.
    pose proof (visit_outcomes (posixpath.join path item) item n
                               (subcall path depth item n) r cs has) as Hout.
    destruct (visit_item (posixpath.join path item) item n (subcall path depth item n)
                         (r, cs, has)) as [[r1 cs1] has1].
    apply (IHrest _ _ _ _ _ _ _ _ Hwfrest H). clear H IHrest Hgit.
    inversion Hout as [r0 Hsame | d content r0 Hn Htext Hfc Hsame
                       | d r0 Hn Htext Hsame
                       | l' name agg c sub ig r0 Hn Hcall Hsame]; subst; clear Hout.
    + exact Hst.
    + apply forallb_app_one; [exact Hst |]. simpl. rewrite Hitem. reflexivity.
    + apply forallb_app_one; [exact Hst |]. simpl. rewrite Hitem. reflexivity.
    + apply forallb_app_one; [exact Hst |].
      simpl in Hcall. pose proof (IHn Hwfn _ _ _ Hcall) as Hsub.
      apply analyze_some in Hcall.
      destruct Hcall as [es' [r2 [cs2 [_ [_ [_ Hnd]]]]]].
      injection Hnd as Hname _ _. rewrite (basename_join _ _ Hvalid) in Hname. subst name.
      cbn [node_name]. rewrite Hitem. simpl negb. rewrite andb_true_l.
      rewrite no_child_named_unfold in Hsub. rewrite no_child_named_unfold. exact Hsub.
Qed.

(** X4.  Unless [include_git] is set, no node below the root of a returned
    tree is called [.git]: the entry is skipped whether it is a directory or
    a file, and whatever the ignore patterns say. *)
Theorem git_entry_never_listed path depth l nd :
  include_git = false ->
  wf_listing l = true ->
  analyze path depth l = Some nd ->
  no_child_named ".git" nd = true.
Proof.
  intros Hgit Hwf H. apply analyze_some in H.
  destruct H as [es [r [cs0 [Hl [_ [Hscan Hnd]]]]]]. subst l nd.
  rewrite no_child_named_unfold.
  eapply (scan_without_git Hgit); [exact Hwf | exact Hscan | reflexivity].
Qed.

(** *** The rendered contents against the aggregates *)

Lemma add_file_content_dir name agg cs ig path :
  add_file_content (DirNode name agg cs ig) path =
  flat_map (fun c => add_file_content c (posixpath.join path name)) cs.
Proof. reflexivity. Qed.

Lemma emitted_chars_app (a b : list (string * string)) :
  emitted_chars (a ++ b) = emitted_chars a + emitted_chars b.
Proof. unfold emitted_chars. rewrite map_app, list_sum_app. reflexivity. Qed.

Lemma scan_contents_bounded :
  forall es path depth r cs has r' cs' has',
    scan_items path depth es r cs has = (r', cs', has') ->
    (forall p, List.length (flat_map (fun c => add_file_content c p) cs) <= file_count r /\
               emitted_chars (flat_map (fun c => add_file_content c p) cs)
               <= text_content_size r) ->
    forall p, List.length (flat_map (fun c => add_file_content c p) cs') <= file_count r' /\
              emitted_chars (flat_map (fun c => add_file_content c p) cs')
              <= text_content_size r'.
Proof.
  apply (entries_mut
           (fun n => match n with
                     | Directory l =>
                         forall path depth name agg cs ig,
                           analyze path depth l = Some (DirNode name agg cs ig) ->
                           forall p,
                             List.length (flat_map (fun c => add_file_content c p) cs)
                             <= file_count agg /\
                             emitted_chars (flat_map (fun c => add_file_content c p) cs)
                             <= text_content_size agg
                     | _ => True
                     end)
           (fun l => forall path depth name agg cs ig,
                analyze path depth l = Some (DirNode name agg cs ig) ->
                forall p,
                  List.length (flat_map (fun c => add_file_content c p) cs)
                  <= file_count agg /\
                  emitted_chars (flat_map (fun c => add_file_content c p) cs)
                  <= text_content_size agg)
           (fun es => forall path depth r cs has r' cs' has',
                scan_items path depth es r cs has = (r', cs', has') ->
                (forall p,
                    List.length (flat_map (fun c => add_file_content c p) cs)
                    <= file_count r /\
                    emitted_chars (flat_map (fun c => add_file_content c p) cs)
                    <= text_content_size r) ->
                forall p,
                  List.length (flat_map (fun c => add_file_content c p) cs')
                  <= file_count r' /\
                  emitted_chars (flat_map (fun c => add_file_content c p) cs')
                  <= text_content_size r')).
  - trivial.
  - intros l IH. exact IH.
  - trivial.
  - intros path depth name agg cs ig H. apply analyze_some in H.
    destruct H as [es [r [cs0 [Hl _]]]]. discriminate.
  - intros es IH path depth name agg cs ig H. apply analyze_some in H.
    destruct H as [es' [r [cs0 [Hl [_ [Hscan Hnd]]]]]]. injection Hl as <-.
    injection Hnd as _ -> ->.
    eapply IH; [exact Hscan |]. intro p. simpl. unfold emitted_chars. simpl. lia.
  - intros path depth r cs has r' cs' has' H Hst. simpl in H. injection H as <- <- <-.
    exact Hst.
  - intros item n IHn rest IHrest path depth r cs has r' cs' has' H Hst.
    rewrite scan_cons in H.
    pose proof (visit_outcomes (posixpath.join path item) item n
                               (subcall path depth item n) r cs has) as Hout.
    destruct (visit_item (posixpath.join path item) item n (subcall path depth item n)
                         (r, cs, has)) as [[r1 cs1] has1].
    apply (IHrest _ _ _ _ _ _ _ _ H). clear H IHrest.
    intro p. destruct (Hst p) as [Hlen Hchars]. clear Hst.
    inversion Hout as [r0 Hsame | d content r0 Hn Htext Hfc Hsame
                       | d r0 Hn Htext Hsame
                       | l' name agg c sub ig r0 Hn Hcall Hsame]; subst; clear Hout;
      destruct Hsame as [Es [Et [Ef [Ed Ex]]]].
    + split; congruence.
    + rewrite flat_map_app, length_app, emitted_chars_app.
      cbn [flat_map add_file_content negb andb app].
      destruct (negb (String.eqb content non_text_sentinel));
        unfold emitted_chars in *; simpl; lia.
    + rewrite flat_map_app, length_app, emitted_chars_app.
      cbn [flat_map add_file_content negb andb app].
      rewrite String.eqb_refl. unfold emitted_chars in *. simpl. lia.
    + rewrite flat_map_app, length_app, emitted_chars_app.
      cbn [flat_map]. rewrite app_nil_r, add_file_content_dir.
      simpl in Hcall.
      destruct (IHn _ _ _ _ _ _ Hcall (posixpath.join p name)) as [Clen Cchars].
      unfold emitted_chars in *. simpl in Clen, Cchars |- *. lia.
Qed.

(** X5.  [generate_content_string] never emits more entries than the root's
    [file_count], nor more characters of content than its
    [text_content_size], for any tree [analyze_directory] returns. *)
Theorem contents_within_aggregates path depth l name agg cs ig :
  analyze path depth l = Some (DirNode name agg cs ig) ->
  List.length (generate_content_string (DirNode name agg cs ig)) <= file_count agg /\
  emitted_chars (generate_content_string (DirNode name agg cs ig)) <= text_content_size agg.
Proof.
  intro H. unfold generate_content_string. rewrite add_file_content_dir.
  apply analyze_some in H.
  destruct H as [es [r [cs0 [Hl [_ [Hscan Hnd]]]]]]. injection Hnd as _ -> ->.
  eapply scan_contents_bounded; [exact Hscan |].
  intro p. simpl. unfold emitted_chars. simpl. lia.
Qed.

(** *** The size estimate against the traversal *)

Local Abbreviation walk_all :=
  (walk fnmatch cwd ignore_patterns base_path).
Local Abbreviation walk_dirs_all :=
  (walk_dirs fnmatch cwd ignore_patterns base_path).
Local Abbreviation walk_files_all :=
  (walk_files fnmatch cwd ignore_patterns base_path).

Lemma walk_files_add root es acc :
  walk_files_all root es acc =
  (fst acc + fst (walk_files_all root es (0, 0)),
   snd acc + snd (walk_files_all root es (0, 0))).
Proof.
  revert acc. induction es as [| file n rest IH]; intro acc.
  - simpl. destruct acc. simpl. f_equal; lia.
  - cbn [walk_files]. destruct n as [d | l' |]; try apply IH.
    destruct (negb (should_ignore fnmatch cwd (posixpath.join root file) base_path
                                  ignore_patterns) && is_text_file d)%bool; [| apply IH].
    rewrite IH. rewrite (IH (fst (0, 0) + getsize d, snd (0, 0) + 1)).
    simpl. f_equal; lia.
Qed.

Lemma walk_unfold root es acc :
  walk_all root (Entries es) acc = walk_dirs_all root es (walk_files_all root es acc).
Proof. reflexivity. Qed.

Lemma walk_dirs_cons root item n rest acc :
  walk_dirs_all root (ECons item n rest) acc =
  match n with
  | Directory l' =>
      if should_ignore fnmatch cwd (posixpath.join root item) base_path ignore_patterns
      then walk_dirs_all root rest acc
      else walk_dirs_all root rest (walk_all (posixpath.join root item) l' acc)
  | _ => walk_dirs_all root rest acc
  end.
Proof. destruct n; reflexivity. Qed.

Lemma walk_add :
  forall l root acc,
    walk_all root l acc =
    (fst acc + fst (walk_all root l (0, 0)), snd acc + snd (walk_all root l (0, 0))).
Proof.
  apply (listing_mut
           (fun n => match n with
                     | Directory l =>
                         forall root acc,
                           walk_all root l acc =
                           (fst acc + fst (walk_all root l (0, 0)),
                            snd acc + snd (walk_all root l (0, 0)))
                     | _ => True
                     end)
           (fun l => forall root acc,
                walk_all root l acc =
                (fst acc + fst (walk_all root l (0, 0)),
                 snd acc + snd (walk_all root l (0, 0))))
           (fun es => forall root acc,
                walk_dirs_all root es acc =
                (fst acc + fst (walk_dirs_all root es (0, 0)),
                 snd acc + snd (walk_dirs_all root es (0, 0))))).
  - trivial.
  - intros l IH. exact IH.
  - trivial.
  - intros root acc. simpl. destruct acc. simpl. f_equal; lia.
  - intros es IH root acc. rewrite !walk_unfold.
    rewrite IH. rewrite (IH root (walk_files_all root es (0, 0))).
    rewrite walk_files_add. simpl. f_equal; lia.
  - intros root acc. simpl. destruct acc. simpl. f_equal; lia.
  - intros item n IHn rest IHrest root acc. rewrite !walk_dirs_cons.
    destruct n as [d | l' |]; try apply IHrest.
    destruct (should_ignore fnmatch cwd (posixpath.join root item) base_path ignore_patterns);
      [apply IHrest |].
    rewrite IHrest. rewrite (IHrest root (walk_all (posixpath.join root item) l' (0, 0))).
    rewrite IHn. simpl. f_equal; lia.
Qed.

Lemma walk_dirs_add root es acc :
  walk_dirs_all root es acc =
  (fst acc + fst (walk_dirs_all root es (0, 0)),
   snd acc + snd (walk_dirs_all root es (0, 0))).
Proof.
  revert acc. induction es as [| item n rest IH]; intro acc.
  - simpl. destruct acc. simpl. f_equal; lia.
  - rewrite !walk_dirs_cons. destruct n as [d | l' |]; try apply IH.
    destruct (should_ignore fnmatch cwd (posixpath.join root item) base_path ignore_patterns);
      [apply IH |].
    rewrite IH. rewrite (IH (walk_all (posixpath.join root item) l' (0, 0))).
    rewrite walk_add. simpl. f_equal; lia.
Qed.

Lemma walk_entries root es :
  walk_all root (Entries es) (0, 0) =
  (fst (walk_files_all root es (0, 0)) + fst (walk_dirs_all root es (0, 0)),
   snd (walk_files_all root es (0, 0)) + snd (walk_dirs_all root es (0, 0))).
Proof. rewrite walk_unfold, walk_dirs_add. reflexivity. Qed.




(** *** Entries that leave no trace *)

Lemma scan_app path depth es1 es2 r cs has :
  scan_items path depth (entries_app es1 es2) r cs has =
  let '(r1, cs1, has1) := scan_items path depth es1 r cs has in
  scan_items path depth es2 r1 cs1 has1.
Proof.
  revert r cs has. induction es1 as [| item n rest IH]; intros r cs has.
  - reflexivity.
  - cbn [entries_app]. rewrite !scan_cons.
    destruct (visit_item (posixpath.join path item) item n (subcall path depth item n)
                         (r, cs, has)) as [[r1 cs1] has1].
    apply IH.
Qed.

Lemma visit_nothing path depth item n st :
  n = Special \/
  (exists l', n = Directory l' /\
              analyze (posixpath.join path item) (depth + 1) l' = None) ->
  visit_item (posixpath.join path item) item n (subcall path depth item n) st = st.
Proof.
  intros Hn. destruct st as [[r cs] has]. unfold visit.
  destruct (String.eqb item ".git" && negb include_git)%bool; [reflexivity |].
  destruct Hn as [-> | [l' [-> Hnone]]].
  - destruct (should_ignore fnmatch cwd (posixpath.join path item) base_path ignore_patterns);
      reflexivity.
  - simpl. rewrite Hnone.
    destruct (should_ignore fnmatch cwd (posixpath.join path item) base_path ignore_patterns);
      reflexivity.
Qed.

(** X17.  An entry that is neither a file nor a directory, and a
    subdirectory whose own analysis yields nothing (unreadable, empty, beyond
    the depth limit, or without a matching file), leave no trace: the result
    for the parent is what it would be without the entry. *)
Theorem fruitless_entry_leaves_no_trace path depth es1 item n es2 :
  n = Special \/
  (exists l', n = Directory l' /\
              analyze (posixpath.join path item) (depth + 1) l' = None) ->
  analyze path depth (Entries (entries_app es1 (ECons item n es2)))
  = analyze path depth (Entries (entries_app es1 es2)).
Proof.
  intro Hn. rewrite !analyze_unfold, !scan_app.
  destruct (scan_items path depth es1 zero_totals [] false) as [[r1 cs1] has1].
  rewrite scan_cons, (visit_nothing path depth item n (r1, cs1, has1) Hn). reflexivity.
Qed.

End BuilderProperties.

(** ** Adding a pattern that matches nothing *)

Section IgnoreIdempotence.

Variable fnmatch : string -> string -> bool.
Variable cwd : string.
Variable count_tokens : string -> nat.
Variable decode : list byte -> string.
Variable strerror : string.
Variable finditer : string -> string -> list string.
Variable base_path : string.
Variable include_git : bool.
Variable max_depth : option Z.
Variable filter_patterns : option (list string).
Variable extract_definitions : bool.

(** The pattern set [patterns], and the set [extended] obtained by adding
    [extra] to it. *)
Variable patterns extended : list string.
Variable extra : string.
Hypothesis extended_spec :
  forall pattern, In pattern extended <-> pattern = extra \/ In pattern patterns.

Local Abbreviation analyze_with pats :=
  (analyze_directory fnmatch cwd count_tokens decode strerror finditer pats
                     base_path include_git max_depth filter_patterns extract_definitions).
Local Abbreviation scan_with pats :=
  (scan fnmatch cwd count_tokens decode strerror finditer pats
        base_path include_git max_depth filter_patterns extract_definitions).
Local Abbreviation visit_with pats :=
  (visit fnmatch cwd count_tokens decode strerror finditer pats
         base_path include_git filter_patterns extract_definitions).
Local Abbreviation subcall_with pats :=
  (recursive_call fnmatch cwd count_tokens decode strerror finditer pats
                  base_path include_git max_depth filter_patterns extract_definitions).
Local Abbreviation met :=
  (encountered fnmatch cwd patterns base_path include_git max_depth).
Local Abbreviation met_in :=
  (encountered_in fnmatch cwd patterns base_path include_git max_depth).

Lemma should_ignore_extended (q : string) :
  pattern_hits fnmatch cwd q base_path extra = false ->
  should_ignore fnmatch cwd q base_path extended
  = should_ignore fnmatch cwd q base_path patterns.
Proof.
  intro Hq.
  destruct (should_ignore fnmatch cwd q base_path patterns) eqn:E.
  - apply should_ignore_exists in E. destruct E as [p [Hin Hp]].
    apply should_ignore_exists. exists p. split; [apply extended_spec; auto | exact Hp].
  - apply should_ignore_false. intros p Hin. apply extended_spec in Hin.
    destruct Hin as [-> | Hin]; [exact Hq |].
    exact (proj1 (should_ignore_false fnmatch cwd q base_path patterns) E p Hin).
Qed.

Lemma visit_extended item_path item n subdir subdir' st :
  should_ignore fnmatch cwd item_path base_path extended
  = should_ignore fnmatch cwd item_path base_path patterns ->
  (should_ignore fnmatch cwd item_path base_path patterns = false -> subdir' = subdir) ->
  visit_with extended item_path item n subdir' st
  = visit_with patterns item_path item n subdir st.
Proof.
  intros Hig Hsub. destruct st as [[r cs] has]. unfold visit. rewrite Hig.
  destruct (String.eqb item ".git" && negb include_git)%bool; [reflexivity |].
  destruct (should_ignore fnmatch cwd item_path base_path patterns); [reflexivity |].
  rewrite (Hsub eq_refl). reflexivity.
Qed.

Lemma scan_extended :
  forall es path depth r cs has,
    (forall q, In q (met_in path depth es) ->
               pattern_hits fnmatch cwd q base_path extra = false) ->
    scan_with extended path depth es r cs has = scan_with patterns path depth es r cs has.
Proof.
  apply (entries_mut
           (fun n => match n with
                     | Directory l =>
                         forall path depth,
                           (forall q, In q (met path depth l) ->
                                      pattern_hits fnmatch cwd q base_path extra = false) ->
                           analyze_with extended path depth l = analyze_with patterns path depth l
                     | _ => True
                     end)
           (fun l => forall path depth,
                (forall q, In q (met path depth l) ->
                           pattern_hits fnmatch cwd q base_path extra = false) ->
                analyze_with extended path depth l = analyze_with patterns path depth l)
           (fun es => forall path depth r cs has,
                (forall q, In q (met_in path depth es) ->
                           pattern_hits fnmatch cwd q base_path extra = false) ->
                scan_with extended path depth es r cs has
                = scan_with patterns path depth es r cs has)).
  - trivial.
  - intros l IH. exact IH.
  - trivial.
  - intros path depth _. rewrite !analyze_unfold. reflexivity.
  - intros es IH path depth H. rewrite !analyze_unfold.
    cbn [encountered] in H.
    destruct (too_deep max_depth depth); [reflexivity |].
    rewrite (IH path depth zero_totals [] false H). reflexivity.
  - reflexivity.
  - intros item n IHn rest IHrest path depth r cs has H.
    rewrite !scan_cons. cbn [encountered_in] in H.
    destruct (String.eqb item ".git" && negb include_git)%bool eqn:Hgit.
    { unfold visit. rewrite Hgit. apply IHrest, H. }
    assert (Hitem : pattern_hits fnmatch cwd (posixpath.join path item) base_path extra = false)
      by (apply H; left; reflexivity).
    assert (Hrest : forall q, In q (met_in path depth rest) ->
                              pattern_hits fnmatch cwd q base_path extra = false).
    { intros q Hq. apply H. right. apply in_or_app. right. exact Hq. }
    rewrite (visit_extended (posixpath.join path item) item n
                            (subcall_with patterns path depth item n)
                            (subcall_with extended path depth item n) (r, cs, has)).
    + destruct (visit_with patterns (posixpath.join path item) item n
                           (subcall_with patterns path depth item n) (r, cs, has))
        as [[r1 cs1] has1].
      apply IHrest, Hrest.
    + apply should_ignore_extended, Hitem.
    + intro Hvis. destruct n as [d | l' |]; try reflexivity.
      simpl. apply IHn. intros q Hq. apply H. right. apply in_or_app. left.
      rewrite Hvis. exact Hq.
Qed.

(** C9.  Adding to the ignore patterns a pattern that matches none of the
    paths the traversal encounters leaves the result as it was: absent where
    it was absent, and otherwise the same tree, node for node and field for
    field. *)
Theorem ignore_idempotence (path : string) (current_depth : Z) (l : listing) :
  (forall q, In q (met path current_depth l) ->
             pattern_hits fnmatch cwd q base_path extra = false) ->
  analyze_with extended path current_depth l = analyze_with patterns path current_depth l.
Proof.
  intro H. rewrite !analyze_unfold.
  destruct l as [| es]; [reflexivity |].
  cbn [encountered] in H.
  destruct (too_deep max_depth current_depth); [reflexivity |].
  rewrite (scan_extended es path current_depth zero_totals [] false H). reflexivity.
Qed.

End IgnoreIdempotence.

(** ** The properties on the sample directories *)

Section OnSamples.

Import Reference Samples.

Lemma aggregation_invariant_witness :
  wf_listing nested = true /\
  exists nd, digest [] None false "proj" nested = Some nd /\ aggregated nested nd.
Proof.
  split; [vm_compute; reflexivity |].
  eexists. split; [vm_compute; reflexivity |].
  apply (aggregation_invariant Glob.fnmatch cwd count_tokens decode strerror Regex.finditer
           [] "proj" false None None false "proj" 0%Z nested).
  - vm_compute; reflexivity.
  - vm_compute; reflexivity.
Defined.

Lemma pruning_invariant_witness :
  (exists nd, digest [] None false "proj" nested = Some nd /\ no_empty_dir nd) /\
  digest ["*.py"; "*.bin"] None false "proj" scenario = None.
Proof.
  pose proof (pruning_invariant Glob.fnmatch cwd count_tokens decode strerror Regex.finditer
                [] "proj" false None None false "proj" 0%Z nested) as [Hfull _].
  pose proof (pruning_invariant Glob.fnmatch cwd count_tokens decode strerror Regex.finditer
                ["*.py"; "*.bin"] "proj" false None None false "proj" 0%Z scenario)
    as [_ Hnone].
  split.
  - eexists. split; [vm_compute; reflexivity |].
    apply Hfull. vm_compute; reflexivity.
  - apply (Hnone _ eq_refl).
    intros item [<- | [<- | []]]; vm_compute; reflexivity.
Defined.

Lemma content_filter_and_gate_witness :
  (exists nd,
      digest [] (Some ["foo"; "bar"]) false "proj" filtered = Some nd /\
      In (FileNode "both.txt" 11 3 "foo and bar" false) (node_children nd) /\
      forall pattern, In pattern ["foo"; "bar"] ->
                      Py.str_in pattern "foo and bar" = true)
  /\
  (exists nd,
      digest [] None false "proj" filtered = Some nd /\
      In (FileNode "both.txt" 11 3 "foo and bar" false) (node_children nd)).
Proof.
  assert (Huniq : unique_names (entries_of filtered) = true) by (vm_compute; reflexivity).
  assert (Hentry : entry_of "both.txt" (RegularFile foo_bar_txt) (entries_of filtered))
    by (simpl; left; split; reflexivity).
  assert (Htext : is_text_file foo_bar_txt = true) by (vm_compute; reflexivity).
  assert (Hvis : should_ignore Glob.fnmatch cwd (posixpath.join "proj" "both.txt") "proj" []
                 = false) by reflexivity.
  split.
  - eexists. split; [vm_compute; reflexivity |].
    split; [simpl; left; reflexivity |].
    eapply (proj1 (content_filter_and_gate Glob.fnmatch cwd count_tokens decode strerror
                     Regex.finditer [] "proj" false None (Some ["foo"; "bar"]) false
                     "proj" 0%Z (entries_of filtered) "both.txt" foo_bar_txt
                     Huniq Hentry Htext Hvis)
                  ["foo"; "bar"] _ 11 3 "foo and bar" false eq_refl).
    + discriminate.
    + vm_compute; reflexivity.
    + simpl; left; reflexivity.
  - exact (proj2 (content_filter_and_gate Glob.fnmatch cwd count_tokens decode strerror
                    Regex.finditer [] "proj" false None None false
                    "proj" 0%Z (entries_of filtered) "both.txt" foo_bar_txt
                    Huniq Hentry Htext Hvis)
                 eq_refl eq_refl eq_refl).
Defined.

Lemma extraction_or_gate_witness :
  extract_classes_and_functions Regex.finditer (decode (bytes_of
    ("import helper" ++ newline ++ "def main():" ++ newline ++ "    pass" ++ newline)))
    ["helper"] = "" /\
  exists nd,
    digest [] (Some ["helper"]) true "proj" sources = Some nd /\
    forall fsize tokens content ig,
      ~ In (FileNode "uses.py" fsize tokens content ig) (node_children nd).
Proof.
  assert (Hx : extract_classes_and_functions Regex.finditer
                 (read_file_content decode strerror uses_py) ["helper"] = "")
    by (vm_compute; reflexivity).
  split; [exact Hx |].
  eexists. split; [vm_compute; reflexivity |].
  apply (proj2 (extraction_or_gate Glob.fnmatch cwd count_tokens decode strerror
                  Regex.finditer [] "proj" false None (Some ["helper"]) true)
               "proj" 0%Z (entries_of sources) "uses.py" uses_py ["helper"]).
  - reflexivity.
  - reflexivity.
  - discriminate.
  - vm_compute; reflexivity.
  - simpl; left; split; reflexivity.
  - vm_compute; reflexivity.
  - exact Hx.
  - vm_compute; reflexivity.
Defined.

Lemma ignore_idempotence_witness :
  digest ["*.log"; "*.pyc"] None false "proj" nested = digest ["*.pyc"] None false "proj" nested.
Proof.
  apply (ignore_idempotence Glob.fnmatch cwd count_tokens decode strerror Regex.finditer
           "proj" false None None false ["*.pyc"] ["*.log"; "*.pyc"] "*.log").
  - intro pattern. simpl. split; (intros [H | H]; [left; symmetry; exact H | right; exact H]).
  - intros q Hq. vm_compute in Hq.
    destruct Hq as [<- | [<- | [<- | []]]]; vm_compute; reflexivity.
Defined.

Lemma binary_only_absence_witness :
  matching_files Glob.fnmatch cwd decode strerror Regex.finditer [] "proj" false None
                 None false "proj" 0%Z binaries = [] /\
  only_binary_files (entries_of binaries) = true /\
  digest [] None false "proj" binaries = None /\
  digest [] None false "proj" binaries = None.
Proof.
  pose proof (binary_only_absence Glob.fnmatch cwd count_tokens decode strerror
                Regex.finditer [] "proj" false None None false "proj" 0%Z binaries)
    as [Hnone Hbin].
  assert (Hm : matching_files Glob.fnmatch cwd decode strerror Regex.finditer [] "proj"
                              false None None false "proj" 0%Z binaries = [])
    by (vm_compute; reflexivity).
  assert (Hb : only_binary_files (entries_of binaries) = true) by (vm_compute; reflexivity).
  split; [exact Hm | split; [exact Hb | split]].
  - exact (Hnone Hm).
  - exact (Hbin (entries_of binaries) eq_refl Hb).
Defined.

(** The extraction scenario of the specification: one class block containing
    [foo] and one function block containing [qux]. *)
Example extract_keeps_matching_class :
  let content := ("class A:" ++ newline ++ "    foo = 1" ++ newline ++ newline
                  ++ "def f():" ++ newline ++ "    return qux" ++ newline)%string in
  extract_classes_and_functions Regex.finditer content ["foo"]
  = ("class A:" ++ newline ++ "    foo = 1" ++ newline ++ newline)%string
  /\ extract_classes_and_functions Regex.finditer content ["zzz"] = "".
Proof. split; vm_compute; reflexivity. Qed.

(** The filter scenario of the specification: a file with [foo] and [bar]
    passes a filter requiring both and fails one requiring [foo] and [baz]. *)
Example filter_requires_every_pattern :
  filtered_content Regex.finditer (Some ["foo"; "bar"]) false "foo and bar"
  = Some "foo and bar"
  /\ filtered_content Regex.finditer (Some ["foo"; "baz"]) false "foo and bar" = None.
Proof. split; vm_compute; reflexivity. Qed.

(** C3.  The scenario of the specification: [a.py] (text, 100 bytes) and
    [b.bin] (binary) under the pattern [*.bin], no content filter.  The root
    counts one file, but [b.bin] is not listed at all: the loop leaves an
    ignored entry before it builds a node for it, so no child carries
    [is_ignored = True] and the non-text sentinel does not appear. *)
Theorem ignored_binary_not_listed :
  should_ignore Glob.fnmatch cwd (posixpath.join "proj" "b.bin") "proj" ["*.bin"] = true /\
  exists agg cs,
    digest ["*.bin"] None false "proj" scenario = Some (DirNode "proj" agg cs None) /\
    file_count agg = 1 /\
    map node_name cs = ["a.py"] /\
    map node_is_ignored cs = [false].
Proof.
  split; [vm_compute; reflexivity |].
  eexists. eexists. split; [vm_compute; reflexivity |].
  repeat split; reflexivity.
Qed.

(** C8.  [a.txt] (3 bytes) next to [sub/x.txt] (5 bytes), nothing ignored:
    the text files under the root weigh 8 bytes, and the root reports a
    [total_text_size] of 3, the size of the text file it lists itself. *)
Theorem total_text_size_stays_local :
  text_size_listing nested = 8 /\
  exists agg cs,
    digest [] None false "proj" nested = Some (DirNode "proj" agg cs None) /\
    total_text_size agg = 3.
Proof.
  split; [vm_compute; reflexivity |].
  eexists. eexists. split; [vm_compute; reflexivity |]. reflexivity.
Qed.

End OnSamples.

(** ** The estimate and the pattern set *)

Section EstimateProperties.

Variable fnmatch : string -> string -> bool.
Variable cwd : string.
Variable base_path : string.

Local Abbreviation walk_with pats := (walk fnmatch cwd pats base_path).
Local Abbreviation walk_dirs_with pats := (walk_dirs fnmatch cwd pats base_path).
Local Abbreviation walk_files_with pats := (walk_files fnmatch cwd pats base_path).
Local Abbreviation estimate_with pats := (estimate_output_size fnmatch cwd pats base_path).

Lemma walk_unignored :
  forall l root,
    walk_with [] root l (0, 0) = (text_size_listing l, text_count_listing l).
Proof.
  apply (listing_mut
           (fun n => match n with
                     | Directory l =>
                         forall root,
                           walk_with [] root l (0, 0)
                           = (text_size_listing l, text_count_listing l)
                     | _ => True
                     end)
           (fun l => forall root,
                walk_with [] root l (0, 0) = (text_size_listing l, text_count_listing l))
           (fun es => forall root,
                fst (walk_files_with [] root es (0, 0)) + fst (walk_dirs_with [] root es (0, 0))
                = text_size_entries es /\
                snd (walk_files_with [] root es (0, 0)) + snd (walk_dirs_with [] root es (0, 0))
                = text_count_entries es)).
  - trivial.
  - intros l IH. exact IH.
  - trivial.
  - reflexivity.
  - intros es IH root. rewrite walk_entries. destruct (IH root) as [-> ->]. reflexivity.
  - intro root. split; reflexivity.
  - intros item n IHn rest IHrest root. destruct (IHrest root) as [Hs Hc].
    rewrite walk_dirs_cons. cbn [walk_files should_ignore negb andb].
    destruct n as [d | l' |].
    + cbn [text_size_entries text_count_entries text_size_fsnode text_count_fsnode].
      destruct (is_text_file d); [rewrite walk_files_add; simpl |]; lia.
    + cbn [text_size_entries text_count_entries text_size_fsnode text_count_fsnode].
      rewrite walk_dirs_add, IHn. simpl. lia.
    + cbn [text_size_entries text_count_entries text_size_fsnode text_count_fsnode]. lia.
Qed.

Variable patterns more : list string.
Hypothesis more_patterns : incl patterns more.

Lemma should_ignore_more (q : string) :
  should_ignore fnmatch cwd q base_path patterns = true ->
  should_ignore fnmatch cwd q base_path more = true.
Proof.
  intro H. apply should_ignore_exists in H. destruct H as [p [Hin Hp]].
  apply should_ignore_exists. exists p. split; [apply more_patterns, Hin | exact Hp].
Qed.

Lemma walk_files_fewer root es :
  fst (walk_files_with more root es (0, 0)) <= fst (walk_files_with patterns root es (0, 0)) /\
  snd (walk_files_with more root es (0, 0)) <= snd (walk_files_with patterns root es (0, 0)).
Proof.
  induction es as [| file n rest IH]; [simpl; lia |].
  cbn [walk_files]. destruct n as [d | l' |]; try exact IH.
  destruct (should_ignore fnmatch cwd (posixpath.join root file) base_path patterns) eqn:E.
  - rewrite (should_ignore_more _ E). exact IH.
  - destruct (should_ignore fnmatch cwd (posixpath.join root file) base_path more);
      destruct (is_text_file d); cbn [negb andb];
      rewrite ?(walk_files_add fnmatch cwd patterns base_path root rest (_ + _, _ + _)),
              ?(walk_files_add fnmatch cwd more base_path root rest (_ + _, _ + _));
      simpl; lia.
Qed.

Lemma walk_fewer :
  forall l root,
    fst (walk_with more root l (0, 0)) <= fst (walk_with patterns root l (0, 0)) /\
    snd (walk_with more root l (0, 0)) <= snd (walk_with patterns root l (0, 0)).
Proof.
  apply (listing_mut
           (fun n => match n with
                     | Directory l =>
                         forall root,
                           fst (walk_with more root l (0, 0))
                           <= fst (walk_with patterns root l (0, 0)) /\
                           snd (walk_with more root l (0, 0))
                           <= snd (walk_with patterns root l (0, 0))
                     | _ => True
                     end)
           (fun l => forall root,
                fst (walk_with more root l (0, 0)) <= fst (walk_with patterns root l (0, 0)) /\
                snd (walk_with more root l (0, 0)) <= snd (walk_with patterns root l (0, 0)))
           (fun es => forall root,
                fst (walk_dirs_with more root es (0, 0))
                <= fst (walk_dirs_with patterns root es (0, 0)) /\
                snd (walk_dirs_with more root es (0, 0))
                <= snd (walk_dirs_with patterns root es (0, 0)))).
  - trivial.
  - intros l IH. exact IH.
  - trivial.
  - intro root. simpl. lia.
  - intros es IH root. rewrite !walk_entries. simpl.
    pose proof (walk_files_fewer root es). pose proof (IH root). lia.
  - intro root. simpl. lia.
  - intros item n IHn rest IHrest root. rewrite !walk_dirs_cons.
    destruct n as [d | l' |]; try apply IHrest.
    pose proof (IHrest root) as Hrest.
    destruct (should_ignore fnmatch cwd (posixpath.join root item) base_path patterns) eqn:E.
    + rewrite (should_ignore_more _ E). exact Hrest.
    + rewrite (walk_dirs_add fnmatch cwd patterns base_path root rest
                             (walk_with patterns (posixpath.join root item) l' (0, 0))).
      destruct (should_ignore fnmatch cwd (posixpath.join root item) base_path more).
      * simpl. lia.
      * rewrite (walk_dirs_add fnmatch cwd more base_path root rest
                               (walk_with more (posixpath.join root item) l' (0, 0))).
        pose proof (IHn (posixpath.join root item)). simpl. lia.
Qed.

(** X7.  More ignore patterns never raise the estimate. *)
Theorem estimate_decreases_with_patterns (path : string) (l : listing) :
  estimate_output_size fnmatch cwd more base_path path l
  <= estimate_output_size fnmatch cwd patterns base_path path l.
Proof.
  unfold estimate_output_size.
  pose proof (walk_fewer l path) as [Hs Hc].
  destruct (walk_with more path l (0, 0)) as [s1 c1].
  destruct (walk_with patterns path l (0, 0)) as [s2 c2].
  simpl in *. nia.
Qed.

End EstimateProperties.

(** X8.  With no ignore patterns the estimate is the size of all text files
    below the directory (the quick size check of [main]) plus 100 bytes for
    each of them and 1000 bytes; with patterns it is at most that. *)
Theorem estimate_bounded_by_text_size fnmatch cwd base_path patterns path l :
  estimate_output_size fnmatch cwd [] base_path path l
  = text_size_listing l + text_count_listing l * 100 + 1000 /\
  estimate_output_size fnmatch cwd patterns base_path path l
  <= text_size_listing l + text_count_listing l * 100 + 1000.
Proof.
  assert (Hnone : estimate_output_size fnmatch cwd [] base_path path l
                  = text_size_listing l + text_count_listing l * 100 + 1000).
  { unfold estimate_output_size. rewrite walk_unignored. reflexivity. }
  split; [exact Hnone |].
  rewrite <- Hnone.
  pose proof (walk_fewer fnmatch cwd base_path [] patterns ltac:(intros p []) l path)
    as [Hs Hc].
  unfold estimate_output_size.
  destruct (walk fnmatch cwd patterns base_path path l (0, 0)) as [s1 c1].
  destruct (walk fnmatch cwd [] base_path path l (0, 0)) as [s2 c2].
  simpl in *. nia.
Qed.

(** ** The pattern set as a set *)

Section PatternSet.

Variable fnmatch : string -> string -> bool.
Variable cwd : string.
Variable count_tokens : string -> nat.
Variable decode : list byte -> string.
Variable strerror : string.
Variable finditer : string -> string -> list string.
Variable base_path : string.
Variable include_git : bool.
Variable max_depth : option Z.
Variable filter_patterns : option (list string).
Variable extract_definitions : bool.

(** Two enumerations of the same set of patterns. *)
Variable patterns1 patterns2 : list string.
Hypothesis same_members : forall pattern, In pattern patterns1 <-> In pattern patterns2.

Local Abbreviation analyze_with pats :=
  (analyze_directory fnmatch cwd count_tokens decode strerror finditer pats
                     base_path include_git max_depth filter_patterns extract_definitions).
Local Abbreviation scan_with pats :=
  (scan fnmatch cwd count_tokens decode strerror finditer pats
        base_path include_git max_depth filter_patterns extract_definitions).
Local Abbreviation visit_with pats :=
  (visit fnmatch cwd count_tokens decode strerror finditer pats
         base_path include_git filter_patterns extract_definitions).
Local Abbreviation subcall_with pats :=
  (recursive_call fnmatch cwd count_tokens decode strerror finditer pats
                  base_path include_git max_depth filter_patterns extract_definitions).

Lemma should_ignore_same_members (q root : string) :
  should_ignore fnmatch cwd q root patterns1 = should_ignore fnmatch cwd q root patterns2.
Proof.
  destruct (should_ignore fnmatch cwd q root patterns2) eqn:E.
  - apply should_ignore_exists in E. destruct E as [p [Hin Hp]].
    apply should_ignore_exists. exists p. split; [apply same_members, Hin | exact Hp].
  - apply should_ignore_false. intros p Hin.
    exact (proj1 (should_ignore_false fnmatch cwd q root patterns2) E p
                 (proj1 (same_members p) Hin)).
Qed.

Lemma scan_same_members :
  forall es path depth r cs has,
    scan_with patterns1 path depth es r cs has = scan_with patterns2 path depth es r cs has.
Proof.
  apply (entries_mut
           (fun n => match n with
                     | Directory l =>
                         forall path depth,
                           analyze_with patterns1 path depth l
                           = analyze_with patterns2 path depth l
                     | _ => True
                     end)
           (fun l => forall path depth,
                analyze_with patterns1 path depth l = analyze_with patterns2 path depth l)
           (fun es => forall path depth r cs has,
                scan_with patterns1 path depth es r cs has
                = scan_with patterns2 path depth es r cs has)).
  - trivial.
  - intros l IH. exact IH.
  - trivial.
  - intros path depth. rewrite !analyze_unfold. reflexivity.
  - intros es IH path depth. rewrite !analyze_unfold, IH. reflexivity.
  - reflexivity.
  - intros item n IHn rest IHrest path depth r cs has. rewrite !scan_cons.
    assert (Hsub : subcall_with patterns1 path depth item n
                   = subcall_with patterns2 path depth item n).
    { destruct n as [d | l' |]; try reflexivity. simpl. apply IHn. }
    assert (Hvisit : visit_with patterns1 (posixpath.join path item) item n
                                (subcall_with patterns1 path depth item n) (r, cs, has)
                     = visit_with patterns2 (posixpath.join path item) item n
                                  (subcall_with patterns2 path depth item n) (r, cs, has)).
    { rewrite Hsub. unfold visit. rewrite should_ignore_same_members. reflexivity. }
    rewrite Hvisit.
    destruct (visit_with patterns2 (posixpath.join path item) item n
                         (subcall_with patterns2 path depth item n) (r, cs, has))
      as [[r1 cs1] has1].
    apply IHrest.
Qed.

(** X9.  Only the members of the pattern set matter: two lists with the same
    members, in any order and with any repetitions, ignore the same paths and
    give the same tree. *)
Theorem pattern_order_is_irrelevant (path : string) (current_depth : Z) (l : listing) :
  (forall q root, should_ignore fnmatch cwd q root patterns1
                  = should_ignore fnmatch cwd q root patterns2) /\
  analyze_with patterns1 path current_depth l = analyze_with patterns2 path current_depth l.
Proof.
  split; [exact should_ignore_same_members |].
  rewrite !analyze_unfold. destruct l as [| es]; [reflexivity |].
  rewrite scan_same_members. reflexivity.
Qed.

End PatternSet.

(** ** Renderers *)

(** Induction on trees, with the hypothesis available for every child. *)
Lemma node_induction (P : node -> Prop) :
  (forall name fsize tokens content ig, P (FileNode name fsize tokens content ig)) ->
  (forall name agg cs ig, Forall P cs -> P (DirNode name agg cs ig)) ->
  forall nd, P nd.
Proof.
  intros Hfile Hdir. fix IH 1. intros [name fsize tokens content ig | name agg cs ig].
  - apply Hfile.
  - apply Hdir. induction cs as [| c cs IHcs]; constructor; [apply IH | exact IHcs].
Qed.

Lemma count_newlines_app (a b : string) :
  count_newlines (a ++ b) = count_newlines a + count_newlines b.
Proof. induction a as [| c a IH]; simpl; [reflexivity | rewrite IH; lia]. Qed.

Lemma str_of_nat_one_line (n : nat) : count_newlines (str_of_nat n) = 0.
Proof.
  unfold str_of_nat. generalize (Nat.to_uint n). intro d.
  induction d; simpl; auto.
Qed.

Lemma concat_marking_last_ext {A} (f g : A -> bool -> string) (l : list A) :
  Forall (fun x => forall b, f x b = g x b) l ->
  concat_marking_last f l = concat_marking_last g l.
Proof.
  induction 1 as [| x l Hx Hl IH]; simpl; [reflexivity |]. rewrite Hx, IH. reflexivity.
Qed.

Section RendererProperties.

Variable GREEN BLUE YELLOW RED RESET_ALL : string.
Variable show_size : bool.
Variable use_color : bool.

Local Abbreviation tree show_ignored :=
  (generate_tree_string GREEN BLUE YELLOW RED RESET_ALL show_size show_ignored use_color).
Local Abbreviation line :=
  (tree_line GREEN BLUE YELLOW RED RESET_ALL show_size use_color).

(** The loop over the children as the source writes it: filter, then
    enumerate. *)
Lemma tree_children_filtered show_ignored name agg cs ig prefix is_last :
  tree show_ignored (DirNode name agg cs ig) prefix is_last =
  if (node_is_ignored (DirNode name agg cs ig) && negb show_ignored)%bool then ""
  else
    (line (DirNode name agg cs ig) prefix is_last
     ++ concat_marking_last
          (fun child last =>
             tree show_ignored child (prefix ++ (if is_last then "    " else "│   ")) last)
          (filter (shown show_ignored) cs))%string.
Proof.
  cbn [generate_tree_string].
  destruct (node_is_ignored (DirNode name agg cs ig) && negb show_ignored)%bool;
    [reflexivity |].
  f_equal. induction cs as [| c cs IH]; [reflexivity |].
  cbn [filter]. destruct (shown show_ignored c); [| exact IH].
  cbn [concat_marking_last]. rewrite IH. reflexivity.
Qed.

Lemma filter_shown_all show_ignored (cs : list node) :
  forallb included cs = true -> filter (shown show_ignored) cs = cs.
Proof.
  induction cs as [| c cs IH]; [reflexivity |]. cbn [forallb filter]. intro H.
  apply andb_true_iff in H. destruct H as [Hc Hcs].
  assert (Hs : shown show_ignored c = true)
    by (unfold shown; unfold included in Hc; rewrite Hc; apply orb_true_r).
  rewrite Hs, (IH Hcs). reflexivity.
Qed.

Lemma none_ignored_children name agg cs ig :
  none_ignored (DirNode name agg cs ig) = true ->
  forallb included cs = true /\ Forall (fun c => none_ignored c = true) cs.
Proof.
  rewrite none_ignored_unfold. induction cs as [| c cs IH]; simpl; [auto |].
  intro H. apply andb_true_iff in H. destruct H as [Hc Hcs].
  apply andb_true_iff in Hc. destruct Hc as [Hi Hn].
  destruct (IH Hcs) as [Hall Hfor]. rewrite Hi, Hall. auto.
Qed.

(** X10.  On a tree in which no node is flagged as ignored, [show_ignored]
    makes no difference to [generate_tree_string]. *)
Theorem show_ignored_needs_ignored_nodes (nd : node) :
  node_is_ignored nd = false ->
  none_ignored nd = true ->
  forall prefix is_last, tree true nd prefix is_last = tree false nd prefix is_last.
Proof.
  induction nd as [name fsize tokens content ig | name agg cs ig IH] using node_induction;
    intros Hroot Hnone prefix is_last.
  - cbn [generate_tree_string]. rewrite Hroot. reflexivity.
  - rewrite !tree_children_filtered, Hroot. simpl andb. cbv iota.
    destruct (none_ignored_children _ _ _ _ Hnone) as [Hinc Hsub].
    rewrite (filter_shown_all true cs Hinc), (filter_shown_all false cs Hinc). f_equal.
    apply concat_marking_last_ext.
    rewrite Forall_forall in IH, Hsub. apply Forall_forall. intros c Hc last.
    apply IH; [exact Hc | | apply Hsub, Hc].
    rewrite forallb_forall in Hinc. specialize (Hinc c Hc).
    unfold included in Hinc. apply negb_true_iff in Hinc. exact Hinc.
Qed.

Hypothesis colors_one_line :
  use_color = true ->
  count_newlines GREEN = 0 /\ count_newlines BLUE = 0 /\ count_newlines YELLOW = 0 /\
  count_newlines RED = 0 /\ count_newlines RESET_ALL = 0.

Lemma line_is_one_line (nd : node) (prefix : string) (is_last : bool) :
  count_newlines (node_name nd) = 0 ->
  count_newlines prefix = 0 ->
  count_newlines (line nd prefix is_last) = 1.
Proof.
  intros Hname Hprefix. unfold tree_line.
  destruct use_color.
  - destruct (colors_one_line eq_refl) as [Hg [Hb [Hy [Hr H0]]]].
    destruct nd as [name fsize tokens content ig | name agg cs ig];
      cbn [node_name node_is_ignored] in *;
      repeat match goal with
             | |- context [if ?b then _ else _] => destruct b
             end;
      rewrite ?count_newlines_app, ?str_of_nat_one_line, ?Hname, ?Hprefix,
              ?Hg, ?Hb, ?Hy, ?Hr, ?H0; reflexivity.
  - clear colors_one_line.
    destruct nd as [name fsize tokens content ig | name agg cs ig];
      cbn [node_name node_is_ignored] in *;
      repeat match goal with
             | |- context [if ?b then _ else _] => destruct b
             end;
      rewrite ?count_newlines_app, ?str_of_nat_one_line, ?Hname, ?Hprefix; reflexivity.
Qed.

Lemma names_on_one_line_children name agg cs ig :
  names_on_one_line (DirNode name agg cs ig) = true ->
  count_newlines name = 0 /\ Forall (fun c => names_on_one_line c = true) cs.
Proof.
  cbn [names_on_one_line node_name]. intro H.
  apply andb_true_iff in H. destruct H as [Hn Hcs]. apply Nat.eqb_eq in Hn.
  split; [exact Hn |].
  induction cs as [| c cs IH]; constructor.
  - apply andb_true_iff in Hcs. apply Hcs.
  - apply IH. apply andb_true_iff in Hcs. apply Hcs.
Qed.

Lemma rendered_nodes_dir show_ignored name agg cs ig :
  rendered_nodes show_ignored (DirNode name agg cs ig) =
  if (node_is_ignored (DirNode name agg cs ig) && negb show_ignored)%bool then 0
  else 1 + list_sum (map (rendered_nodes show_ignored) (filter (shown show_ignored) cs)).
Proof.
  cbn [rendered_nodes].
  destruct (node_is_ignored (DirNode name agg cs ig) && negb show_ignored)%bool;
    [reflexivity |].
  f_equal. induction cs as [| c cs IH]; [reflexivity |].
  cbn [filter]. destruct (shown show_ignored c); simpl; rewrite IH; reflexivity.
Qed.

(** X11.  [generate_tree_string] writes one line per rendered node, when no
    name (and no colour code in use) contains a newline. *)
Theorem tree_has_one_line_per_node show_ignored (nd : node) :
  names_on_one_line nd = true ->
  forall prefix is_last,
    count_newlines prefix = 0 ->
    count_newlines (tree show_ignored nd prefix is_last) = rendered_nodes show_ignored nd.
Proof.
  induction nd as [name fsize tokens content ig | name agg cs ig IH] using node_induction;
    intros Hnames prefix is_last Hprefix.
  - cbn [generate_tree_string rendered_nodes].
    destruct (node_is_ignored (FileNode name fsize tokens content ig) && negb show_ignored)%bool;
      [reflexivity |].
    apply line_is_one_line; [| exact Hprefix].
    cbn [names_on_one_line node_name] in Hnames.
    apply andb_true_iff in Hnames. destruct Hnames as [Hn _]. apply Nat.eqb_eq, Hn.
  - rewrite tree_children_filtered, rendered_nodes_dir.
    destruct (node_is_ignored (DirNode name agg cs ig) && negb show_ignored)%bool;
      [reflexivity |].
    destruct (names_on_one_line_children _ _ _ _ Hnames) as [Hname Hsub].
    rewrite count_newlines_app, line_is_one_line by assumption.
    f_equal.
    assert (Hp : count_newlines (prefix ++ (if is_last then "    " else "│   ")) = 0)
      by (rewrite count_newlines_app, Hprefix; destruct is_last; reflexivity).
    generalize dependent (prefix ++ (if is_last then "    " else "│   "))%string.
    intros prefix' Hp'.
    assert (Hall : Forall (fun c => forall last,
                             count_newlines (tree show_ignored c prefix' last)
                             = rendered_nodes show_ignored c) cs).
    { rewrite Forall_forall in IH, Hsub. apply Forall_forall. intros c Hc last.
      apply IH; [exact Hc | apply Hsub, Hc | exact Hp']. }
    clear IH Hsub Hnames. induction Hall as [| c cs Hc Hcs IHcs]; [reflexivity |].
    cbn [filter]. destruct (shown show_ignored c); [| exact IHcs].
    cbn [concat_marking_last map list_sum]. rewrite count_newlines_app, Hc, IHcs. reflexivity.
Qed.

End RendererProperties.

Lemma file_nodes_dir name agg cs ig :
  file_nodes (DirNode name agg cs ig) = flat_map file_nodes cs.
Proof. reflexivity. Qed.

(** X12.  Every entry [generate_content_string] emits is the content of a
    file node of the tree that is not flagged as ignored, and is never the
    non-text sentinel. *)
Theorem contents_are_text_of_included_files (nd : node) (path content : string) :
  In (path, content) (generate_content_string nd) ->
  content <> non_text_sentinel /\
  exists name fsize tokens, In (FileNode name fsize tokens content false) (file_nodes nd).
Proof.
  unfold generate_content_string. generalize EmptyString as p. revert path.
  induction nd as [name fsize tokens c ig | name agg cs ig IH] using node_induction;
    intros path p Hin.
  - cbn [add_file_content] in Hin.
    destruct ig; simpl in Hin; [contradiction |].
    destruct (String.eqb c non_text_sentinel) eqn:E; simpl in Hin; [contradiction |].
    destruct Hin as [Heq | []]. injection Heq as _ <-.
    split; [apply String.eqb_neq, E |].
    exists name, fsize, tokens. left. reflexivity.
  - change (add_file_content (DirNode name agg cs ig) p)
      with (flat_map (fun c => add_file_content c (posixpath.join p name)) cs) in Hin.
    rewrite file_nodes_dir.
    apply in_flat_map in Hin. destruct Hin as [c [Hc Hin]].
    rewrite Forall_forall in IH.
    destruct (IH c Hc _ _ Hin) as [Hne [n [s [t Hfile]]]].
    split; [exact Hne |]. exists n, s, t. apply in_flat_map. exists c. auto.
Qed.

(** ** Ignore files *)

Lemma string_length_app (a b : string) :
  String.length (a ++ b) = String.length a + String.length b.
Proof. induction a as [| c a IH]; simpl; [reflexivity | rewrite IH; reflexivity]. Qed.

Section IgnoreFileProperties.

Variable isspace : ascii -> bool.
(** [#] is not white space. *)
Hypothesis hash_not_space : isspace "#" = false.

Local Abbreviation strip_ws := (strip isspace).
Local Abbreviation lstrip_ws := (lstrip isspace).
Local Abbreviation rstrip_ws := (rstrip isspace).
Local Abbreviation lines_to_patterns := (pattern_lines isspace).









Variable fnmatch : string -> string -> bool.
Variable cwd : string.

Lemma load_ignore_patterns_parts no_default ignore cdigestignore :
  load_ignore_patterns isspace no_default ignore cdigestignore =
  (if no_default then [] else DEFAULT_IGNORE_PATTERNS)
  ++ match ignore with Some extra => extra | None => [] end
  ++ match cdigestignore with Some lines => lines_to_patterns lines | None => [] end.
Proof.
  unfold load_ignore_patterns.
  destruct no_default; destruct ignore as [[| e extra] |]; destruct cdigestignore as [lines |];
    cbn [negb]; rewrite ?app_nil_l, ?app_nil_r, <- ?app_assoc; reflexivity.
Qed.

Lemma in_loaded_patterns no_default ignore cdigestignore pattern :
  In pattern (load_ignore_patterns isspace no_default ignore cdigestignore) <->
  (no_default = false /\ In pattern DEFAULT_IGNORE_PATTERNS)
  \/ (exists extra, ignore = Some extra /\ In pattern extra)
  \/ (exists lines, cdigestignore = Some lines /\ In pattern (lines_to_patterns lines)).
Proof.
  rewrite load_ignore_patterns_parts, !in_app_iff. split.
  - intros [H | [H | H]].
    + left. destruct no_default; [destruct H | auto].
    + right. left. destruct ignore as [extra |]; [eauto | destruct H].
    + right. right. destruct cdigestignore as [lines |]; [eauto | destruct H].
  - intros [[-> H] | [[extra [-> H]] | [lines [-> H]]]]; auto.
Qed.

Lemma should_ignore_subset (path base_path : string) (some all : list string) :
  (forall pattern, In pattern some -> In pattern all) ->
  should_ignore fnmatch cwd path base_path some = true ->
  should_ignore fnmatch cwd path base_path all = true.
Proof.
  intros Hsub H. apply should_ignore_exists in H. destruct H as [p [Hin Hp]].
  apply should_ignore_exists. exists p. split; [apply Hsub, Hin | exact Hp].
Qed.

(** X14.  A path that the patterns given with [--ignore] match, or those of
    [.cdigestignore], is ignored under the loaded set; and the default
    patterns only ever add to the set: a path ignored with
    [no_default_ignores] set is ignored without it too. *)
Theorem loaded_patterns_ignore no_default ignore cdigestignore (path base_path : string) :
  (forall extra,
      ignore = Some extra ->
      should_ignore fnmatch cwd path base_path extra = true ->
      should_ignore fnmatch cwd path base_path
                    (load_ignore_patterns isspace no_default ignore cdigestignore) = true)
  /\
  (forall lines,
      cdigestignore = Some lines ->
      should_ignore fnmatch cwd path base_path (lines_to_patterns lines) = true ->
      should_ignore fnmatch cwd path base_path
                    (load_ignore_patterns isspace no_default ignore cdigestignore) = true)
  /\
  (should_ignore fnmatch cwd path base_path
                 (load_ignore_patterns isspace true ignore cdigestignore) = true ->
   should_ignore fnmatch cwd path base_path
                 (load_ignore_patterns isspace false ignore cdigestignore) = true).
Proof.
  split; [| split].
  - intros extra Hig. apply should_ignore_subset. intros p Hp.
    apply in_loaded_patterns. right. left. eauto.
  - intros lines Hcd. apply should_ignore_subset. intros p Hp.
    apply in_loaded_patterns. right. right. eauto.
  - apply should_ignore_subset. intros p Hp. apply in_loaded_patterns.
    apply in_loaded_patterns in Hp. destruct Hp as [[Hd _] | Hp]; [discriminate |].
    right. exact Hp.
Qed.

End IgnoreFileProperties.

(** ** Definition extraction: when the extract is empty *)

Lemma string_app_empty (a b : string) :
  (a ++ b)%string = "" -> a = "" /\ b = "".
Proof. destruct a; simpl; [auto | discriminate]. Qed.

Lemma cat_blank_lines_empty (blocks : list string) :
  cat (map with_blank_line blocks) = "" <-> blocks = [].
Proof.
  split; [| intros ->; reflexivity].
  destruct blocks as [| b blocks]; [reflexivity |].
  simpl. unfold with_blank_line. intro H.
  apply string_app_empty in H. destruct H as [H _].
  apply string_app_empty in H. destruct H as [_ H]. discriminate.
Qed.

Lemma str_in_empty (s : string) : Py.str_in "" s = true.
Proof. destruct s; reflexivity. Qed.

Lemma filter_all {A} (f : A -> bool) (l : list A) :
  (forall x, f x = true) -> filter f l = l.
Proof. intro H. induction l as [| x l IH]; simpl; [| rewrite H, IH]; reflexivity. Qed.

(** X15.  The extract is empty exactly when no class-like and no
    function-like block contains one of the required substrings; so it is
    empty for an empty list of substrings, whereas the empty substring keeps
    every block. *)
Theorem extract_empty_iff (finditer : string -> string -> list string)
        (content : string) (patterns : list string) :
  (extract_classes_and_functions finditer content patterns = "" <->
   filter (mentions_any patterns) (finditer class_pattern content) = [] /\
   filter (mentions_any patterns) (finditer function_pattern content) = [])
  /\ extract_classes_and_functions finditer content [] = ""
  /\ (In "" patterns ->
      extract_classes_and_functions finditer content patterns
      = (cat (map with_blank_line (finditer class_pattern content))
         ++ cat (map with_blank_line (finditer function_pattern content)))%string).
Proof.
  assert (Hshape : forall pats,
             extract_classes_and_functions finditer content pats =
             (cat (map with_blank_line
                       (filter (mentions_any pats) (finditer class_pattern content)))
              ++ cat (map with_blank_line
                          (filter (mentions_any pats) (finditer function_pattern content))))%string).
  { intro pats. unfold extract_classes_and_functions. rewrite !keep_definition_fold.
    reflexivity. }
  split; [| split].
  - rewrite Hshape. split.
    + intro H. apply string_app_empty in H. destruct H as [Hc Hf].
      split; apply cat_blank_lines_empty; assumption.
    + intros [-> ->]. reflexivity.
  - rewrite Hshape.
    assert (Hnone : forall l, filter (mentions_any []) l = [])
      by (induction l; simpl; auto).
    rewrite !Hnone. reflexivity.
  - intro Hin. rewrite Hshape.
    assert (Hall : forall b, mentions_any patterns b = true).
    { intro b. unfold mentions_any. apply existsb_exists. exists "". split; [exact Hin |].
      apply str_in_empty. }
    rewrite !(filter_all _ _ Hall). reflexivity.
Qed.

(** ** The banner *)

Section FrameProperties.

Variable CYAN WHITE RESET_ALL : string.

Lemma times_length (c : ascii) (n : nat) : String.length (times c n) = n.
Proof. unfold times. induction n as [| n IH]; simpl; [reflexivity | rewrite IH; reflexivity]. Qed.

Lemma max_len_bound (lines : list string) (line : string) :
  In line lines -> String.length line <= max_len lines.
Proof.
  unfold max_len. induction lines as [| l lines IH]; simpl; [tauto |].
  intros [-> | Hin]; [lia |]. specialize (IH Hin). lia.
Qed.

Lemma ljust_length (line : string) (n : nat) :
  String.length line <= n -> String.length (ljust line n) = n.
Proof. intro H. unfold ljust. rewrite string_length_app, times_length. lia. Qed.

(** X16.  [print_frame] prints a rectangle: a top border, one line per line
    of the text and a bottom border, all of the same visible width, the
    longest line of the text plus 4 (the colour codes come on top of it). *)
Theorem print_frame_is_rectangular (text : string) :
  let lines := Py.split (ascii_of_nat 10) text in
  let width := max_len lines + 4 in
  exists top body bottom,
    print_frame CYAN WHITE RESET_ALL text = top :: body ++ [bottom] /\
    List.length body = List.length lines /\
    String.length top = String.length CYAN + width /\
    String.length bottom = String.length CYAN + width + String.length RESET_ALL /\
    Forall (fun printed =>
              String.length printed
              = String.length CYAN + String.length WHITE + String.length CYAN + width)
           body.
Proof.
  intros lines width. unfold print_frame. fold lines.
  eexists. eexists. eexists. split; [reflexivity |].
  split; [apply length_map |].
  split; [| split].
  - rewrite !string_length_app, times_length. subst width. simpl. lia.
  - rewrite !string_length_app, times_length. subst width. simpl. lia.
  - apply Forall_forall. intros printed Hin. apply in_map_iff in Hin.
    destruct Hin as [line [<- Hin]].
    rewrite !string_length_app, ljust_length.
    + subst width. simpl. lia.
    + pose proof (max_len_bound lines line Hin). lia.
Qed.

End FrameProperties.

(** ** The tree display against the counts *)

Lemma rendered_nodes_unflagged show_ignored (nd : node) :
  node_is_ignored nd = false ->
  none_ignored nd = true ->
  rendered_nodes show_ignored nd = dir_weight nd + List.length (file_nodes nd).
Proof.
  induction nd as [name fsize tokens content ig | name agg cs ig IH] using node_induction;
    intros Hroot Hnone.
  - cbn [rendered_nodes]. rewrite Hroot. reflexivity.
  - rewrite rendered_nodes_dir, Hroot. cbn [andb dir_weight]. rewrite <- Nat.add_assoc.
    destruct (none_ignored_children _ _ _ _ Hnone) as [Hinc Hsub].
    rewrite (filter_shown_all show_ignored cs Hinc).
    rewrite file_nodes_dir, dirs_below_unfold. f_equal.
    clear Hnone Hroot.
    induction cs as [| c cs IHcs]; [reflexivity |].
    inversion IH as [| ? ? Hc Hcs]; subst.
    inversion Hsub as [| ? ? Hn Hns]; subst.
    simpl in Hinc. apply andb_true_iff in Hinc. destruct Hinc as [Hi His].
    cbn [map list_sum flat_map]. rewrite length_app.
    rewrite Hc; [| unfold included in Hi; apply negb_true_iff in Hi; exact Hi | exact Hn].
    specialize (IHcs Hcs His Hns).
    simpl. lia.
Qed.

(** X18.  For a tree [analyze_directory] returns, [generate_tree_string]
    renders one node for the root and one for every file and directory the
    root counts, with [show_ignored] on or off. *)
Theorem display_matches_counts
        fnmatch cwd count_tokens decode strerror finditer ignore_patterns base_path
        include_git max_depth filter_patterns extract_definitions
        path depth l name agg cs ig show_ignored :
  analyze_directory fnmatch cwd count_tokens decode strerror finditer ignore_patterns
                    base_path include_git max_depth filter_patterns extract_definitions
                    path depth l = Some (DirNode name agg cs ig) ->
  rendered_nodes show_ignored (DirNode name agg cs ig) = 1 + file_count agg + dir_count agg.
Proof.
  intro H.
  pose proof (children_never_ignored _ _ _ _ _ _ _ _ _ _ _ _ _ _ _ _ H) as Hnone.
  pose proof (analyze_some _ _ _ _ _ _ _ _ _ _ _ _ _ _ _ _ H)
    as [es [r [cs0 [Hl [_ [Hscan Hnd]]]]]].
  injection Hnd as _ -> -> ->.
  rewrite (rendered_nodes_unflagged show_ignored (DirNode name r cs0 None) eq_refl Hnone).
  assert (Hst : counted_state r cs0).
  { eapply scan_counted; [exact Hscan |]. unfold counted_state. simpl. auto. }
  destruct Hst as [Hf [_ [_ Hd]]].
  cbn [dir_weight]. rewrite file_nodes_dir, dirs_below_unfold. lia.
Qed.

(** ** The further properties on sample data *)

Section MoreOnSamples.

Import Reference Samples MoreSamples.

Lemma root_totals_count_the_tree_witness :
  digest [] None false "proj" nested = Some nested_tree /\
  2 = List.length (file_nodes nested_tree) /\
  1 = dirs_below nested_tree /\
  8 = list_sum (map child_size (file_nodes nested_tree)) /\
  2 = list_sum (map child_tokens (file_nodes nested_tree)).
Proof.
  assert (H : digest [] None false "proj" nested = Some nested_tree)
    by (vm_compute; reflexivity).
  split; [exact H |].
  exact (root_totals_count_the_tree Glob.fnmatch cwd count_tokens decode strerror
           Regex.finditer [] "proj" false None None false "proj" 0%Z nested
           "proj" (Totals 8 2 2 1 8 3) _ None H).
Defined.

Lemma depth_limit_bounds_height_witness :
  exists nd,
    digest_with [] false (Some 0%Z) None false "proj" nested = Some nd /\
    (Z.of_nat (height nd) <= 0 - 0 + 1)%Z.
Proof.
  eexists. split; [vm_compute; reflexivity |].
  apply (depth_limit_bounds_height Glob.fnmatch cwd count_tokens decode strerror
           Regex.finditer [] "proj" false (Some 0%Z) None false 0%Z "proj" 0%Z nested).
  - reflexivity.
  - vm_compute; reflexivity.
Defined.

Lemma children_follow_listing_order_witness :
  subsequence ["README"; "src"] [".git"; "README"; "src"].
Proof.
  apply (children_follow_listing_order Glob.fnmatch cwd count_tokens decode strerror
           Regex.finditer [] "proj" false None None false "proj" 0%Z (entries_of checkout)
           "proj" (Totals 13 2 2 1 13 5)
           [FileNode "README" 5 1 "hello" false;
            DirNode "src" (Totals 8 1 1 0 8 8) [FileNode "main.py" 8 1 "print(1)" false]
                    (Some false)] None).
  - vm_compute; reflexivity.
  - vm_compute; reflexivity.
Defined.

Lemma git_entry_never_listed_witness :
  exists nd,
    digest_with [] false None None false "proj" checkout = Some nd /\
    no_child_named ".git" nd = true.
Proof.
  eexists. split; [vm_compute; reflexivity |].
  apply (git_entry_never_listed Glob.fnmatch cwd count_tokens decode strerror
           Regex.finditer [] "proj" false None None false "proj" 0%Z checkout).
  - reflexivity.
  - vm_compute; reflexivity.
  - vm_compute; reflexivity.
Defined.

Lemma contents_within_aggregates_witness :
  digest [] None false "proj" nested = Some nested_tree /\
  List.length (generate_content_string nested_tree) <= 2 /\
  emitted_chars (generate_content_string nested_tree) <= 8.
Proof.
  assert (H : digest [] None false "proj" nested = Some nested_tree)
    by (vm_compute; reflexivity).
  split; [exact H |].
  exact (contents_within_aggregates Glob.fnmatch cwd count_tokens decode strerror
           Regex.finditer [] "proj" false None None false "proj" 0%Z nested
           "proj" (Totals 8 2 2 1 8 3) _ None H).
Defined.


Lemma estimate_decreases_with_patterns_witness :
  incl ["*.pyc"] ["*.pyc"; "sub"] /\
  estimate_output_size Glob.fnmatch cwd ["*.pyc"; "sub"] "proj" "proj" nested
  <= estimate_output_size Glob.fnmatch cwd ["*.pyc"] "proj" "proj" nested.
Proof.
  assert (Hincl : incl ["*.pyc"] ["*.pyc"; "sub"])
    by (intros p [<- | []]; left; reflexivity).
  split; [exact Hincl |].
  exact (estimate_decreases_with_patterns Glob.fnmatch cwd "proj" ["*.pyc"] ["*.pyc"; "sub"]
           Hincl "proj" nested).
Defined.

Lemma pattern_order_is_irrelevant_witness :
  digest ["sub"; "*.pyc"; "sub"] None false "proj" nested
  = digest ["*.pyc"; "sub"] None false "proj" nested.
Proof.
  refine (proj2 (pattern_order_is_irrelevant Glob.fnmatch cwd count_tokens decode strerror
                   Regex.finditer "proj" false None None false
                   ["sub"; "*.pyc"; "sub"] ["*.pyc"; "sub"] _ "proj" 0%Z nested)).
  intro pattern. simpl. tauto.
Defined.

Lemma show_ignored_needs_ignored_nodes_witness :
  generate_tree_string Ansi.GREEN Ansi.BLUE Ansi.YELLOW Ansi.RED Ansi.RESET_ALL
                       true true false nested_tree "" true
  = generate_tree_string Ansi.GREEN Ansi.BLUE Ansi.YELLOW Ansi.RED Ansi.RESET_ALL
                         true false false nested_tree "" true.
Proof.
  apply (show_ignored_needs_ignored_nodes Ansi.GREEN Ansi.BLUE Ansi.YELLOW Ansi.RED
           Ansi.RESET_ALL true false nested_tree).
  - reflexivity.
  - vm_compute; reflexivity.
Defined.

Lemma tree_has_one_line_per_node_witness :
  count_newlines
    (generate_tree_string Ansi.GREEN Ansi.BLUE Ansi.YELLOW Ansi.RED Ansi.RESET_ALL
                          true false true flagged_tree "" true) = 2 /\
  count_newlines
    (generate_tree_string Ansi.GREEN Ansi.BLUE Ansi.YELLOW Ansi.RED Ansi.RESET_ALL
                          true true true flagged_tree "" true) = 5.
Proof.
  assert (Hcolors : true = true ->
            count_newlines Ansi.GREEN = 0 /\ count_newlines Ansi.BLUE = 0 /\
            count_newlines Ansi.YELLOW = 0 /\ count_newlines Ansi.RED = 0 /\
            count_newlines Ansi.RESET_ALL = 0)
    by (intros _; repeat split; reflexivity).
  split.
  - rewrite (tree_has_one_line_per_node Ansi.GREEN Ansi.BLUE Ansi.YELLOW Ansi.RED
               Ansi.RESET_ALL true true Hcolors false flagged_tree eq_refl "" true eq_refl).
    reflexivity.
  - rewrite (tree_has_one_line_per_node Ansi.GREEN Ansi.BLUE Ansi.YELLOW Ansi.RED
               Ansi.RESET_ALL true true Hcolors true flagged_tree eq_refl "" true eq_refl).
    reflexivity.
Defined.

Lemma contents_are_text_of_included_files_witness :
  In ("proj/sub/x.txt", "hello") (generate_content_string nested_tree) /\
  "hello" <> non_text_sentinel /\
  exists name fsize tokens,
    In (FileNode name fsize tokens "hello" false) (file_nodes nested_tree).
Proof.
  assert (Hin : In ("proj/sub/x.txt", "hello") (generate_content_string nested_tree))
    by (vm_compute; right; left; reflexivity).
  split; [exact Hin |].
  exact (contents_are_text_of_included_files nested_tree "proj/sub/x.txt" "hello" Hin).
Defined.


Lemma loaded_patterns_ignore_witness :
  should_ignore Glob.fnmatch cwd "proj/notes.txt" "proj"
                (load_ignore_patterns Regex.space true (Some ["*.txt"]) None) = true /\
  should_ignore Glob.fnmatch cwd "proj/build" "proj"
                (load_ignore_patterns Regex.space false None (Some ignore_lines)) = true /\
  should_ignore Glob.fnmatch cwd "proj/notes.txt" "proj"
                (load_ignore_patterns Regex.space false (Some ["*.txt"]) None) = true.
Proof.
  split; [| split].
  - apply (proj1 (loaded_patterns_ignore Regex.space Glob.fnmatch cwd true (Some ["*.txt"])
                    None "proj/notes.txt" "proj") ["*.txt"] eq_refl).
    vm_compute; reflexivity.
  - apply (proj1 (proj2 (loaded_patterns_ignore Regex.space Glob.fnmatch cwd false None
                           (Some ignore_lines) "proj/build" "proj")) ignore_lines eq_refl).
    vm_compute; reflexivity.
  - apply (proj2 (proj2 (loaded_patterns_ignore Regex.space Glob.fnmatch cwd true
                           (Some ["*.txt"]) None "proj/notes.txt" "proj"))).
    vm_compute; reflexivity.
Defined.

Lemma extract_empty_iff_witness :
  let content := read_file_content decode strerror lib_py in
  In "" ["zzz"; ""] /\
  extract_classes_and_functions Regex.finditer content ["zzz"; ""]
  = (cat (map with_blank_line (Regex.finditer class_pattern content))
     ++ cat (map with_blank_line (Regex.finditer function_pattern content)))%string /\
  extract_classes_and_functions Regex.finditer content ["zzz"] = "".
Proof.
  intro content.
  assert (Hin : In "" ["zzz"; ""]) by (right; left; reflexivity).
  split; [exact Hin |]. split.
  - exact (proj2 (proj2 (extract_empty_iff Regex.finditer content ["zzz"; ""])) Hin).
  - apply (proj1 (extract_empty_iff Regex.finditer content ["zzz"])).
    split; vm_compute; reflexivity.
Defined.

Lemma fruitless_entry_leaves_no_trace_witness :
  digest [] None false "proj"
         (Entries (entries_app cluttered_head
                               (ECons "locked" (Directory PermissionDenied) cluttered_tail)))
  = digest [] None false "proj" (Entries (entries_app cluttered_head cluttered_tail)) /\
  digest [] None false "proj"
         (Entries (entries_app cluttered_head (ECons "socket" Special cluttered_tail)))
  = digest [] None false "proj" (Entries (entries_app cluttered_head cluttered_tail)).
Proof.
  split.
  - apply (fruitless_entry_leaves_no_trace Glob.fnmatch cwd count_tokens decode strerror
             Regex.finditer [] "proj" false None None false "proj" 0%Z
             cluttered_head "locked" (Directory PermissionDenied) cluttered_tail).
    right. exists PermissionDenied. split; reflexivity.
  - apply (fruitless_entry_leaves_no_trace Glob.fnmatch cwd count_tokens decode strerror
             Regex.finditer [] "proj" false None None false "proj" 0%Z
             cluttered_head "socket" Special cluttered_tail).
    left. reflexivity.
Defined.

Lemma display_matches_counts_witness :
  digest [] None false "proj" nested = Some nested_tree /\
  rendered_nodes false nested_tree = 1 + 2 + 1.
Proof.
  assert (H : digest [] None false "proj" nested = Some nested_tree)
    by (vm_compute; reflexivity).
  split; [exact H |].
  exact (display_matches_counts Glob.fnmatch cwd count_tokens decode strerror
           Regex.finditer [] "proj" false None None false "proj" 0%Z nested
           "proj" (Totals 8 2 2 1 8 3) _ None false H).
Defined.

End MoreOnSamples.
